(** * Chessboard: move legality and drag-and-drop handlers of [src/App.tsx]

    A shallow embedding of the rule evaluator [canMove], the payload
    validators [isCoord] and [isPieceType], the hover callbacks of [Square]
    and the drop monitor of [Chessboard], followed by the properties that the
    specification states about them.

    Modelling choices, all documented where they are made:
    - a JavaScript [number] is an IEEE 754 binary64 value, taken from the
      standard library's [SpecFloat] (no axioms, executable);
    - values of type [unknown] are a small universe [JSValue];
    - a [PieceRecord] carries the identity of the object that holds it,
      because the drop monitor removes the moved piece with [p !== piece];
    - a handler returns the argument of the state setter it calls, if any. *)

From Stdlib Require Import ZArith List Bool String Lia SpecFloat.
From Stdlib Require Import Permutation.
Import ListNotations.

(** ** Numbers *)

(** [number] is binary64: 53 bits of precision, infinities at exponent 1024.
    The doubles are the [valid_binary prec emax] members of [spec_float];
    every theorem below that quantifies over [number] holds for all of
    [spec_float], hence for all doubles. *)
Definition number : Type := spec_float.
Definition prec : Z := 53.
Definition emax : Z := 1024.

(** The double denoting the integer literal [z], and the double [m * 2^e]. *)
Definition num (z : Z) : number := binary_normalize prec emax z 0 false.
Definition dyadic (m e : Z) : number := binary_normalize prec emax m e false.
Definition JS_NaN : number := S754_nan.

(** [x - y], unary [-x], [Math.abs(x)] and [x === y] on numbers. *)
Definition num_sub (x y : number) : number := SFsub prec emax x y.
Definition num_neg (x : number) : number := SFopp x.
Definition Math_abs (x : number) : number := SFabs x.
Definition strict_eq (x y : number) : bool := SFeqb x y.

Definition is_NaN (x : number) : bool :=
  match x with S754_nan => true | _ => false end.

Definition is_finite (x : number) : bool :=
  match x with S754_zero _ | S754_finite _ _ _ => true | _ => false end.

(** [Array.prototype.includes] compares with SameValueZero: like [===],
    except that NaN is the same as NaN. *)
Definition sameValueZero (x y : number) : bool :=
  (is_NaN x && is_NaN y) || strict_eq x y.

Definition includes (arr : list number) (searchElement : number) : bool :=
  existsb (fun e => sameValueZero e searchElement) arr.

(** ** Coordinates, pieces *)

(** [type Coord = [number, number]]: [c[0]] is [fst c], [c[1]] is [snd c]. *)
Definition Coord : Type := (number * number)%type.
Definition coord (r c : Z) : Coord := (num r, num c).

(** [type PieceType = "king" | "pawn"]. *)
Inductive PieceType : Type := king | pawn.

(** The string each member of the union is at run time. *)
Definition tag (t : PieceType) : string :=
  match t with king => "king" | pawn => "pawn" end.

(** [type PieceRecord = { type; location }].  [oid] is the identity of the
    object: two records with equal fields are still two objects, and
    [!==] tells them apart. *)
Record PieceRecord : Type := mkPiece {
  oid : nat;
  type : PieceType;
  location : Coord
}.

Definition isEqualCoord (c1 c2 : Coord) : bool :=
  strict_eq (fst c1) (fst c2) && strict_eq (snd c1) (snd c2).

(** ** The rule evaluator *)

(** [canMove].  The [default] branch of the source's [switch] has no
    counterpart: [PieceType] has exactly the two cases. *)
Definition canMove (start destination : Coord) (pieceType : PieceType)
    (pieces : list PieceRecord) : bool :=
  let rowDist := Math_abs (num_sub (fst start) (fst destination)) in
  let colDist := Math_abs (num_sub (snd start) (snd destination)) in
  match find (fun piece => isEqualCoord (location piece) destination) pieces with
  | Some _ => false
  | None =>
      match pieceType with
      | king => includes [num 0; num 1] rowDist && includes [num 0; num 1] colDist
      | pawn =>
          strict_eq colDist (num 0)
          && strict_eq (num_sub (fst start) (fst destination)) (num_neg (num 1))
      end
  end.

(** ** Values of type [unknown] and the payload validators *)

(** Arrays are dense: holes are not modelled.  [JSObject] stands for every
    object that is not an array. *)
#[local] Set Warnings "-register-all".
Inductive JSValue : Type :=
  | JSUndefined
  | JSNull
  | JSBoolean (b : bool)
  | JSNumber (n : number)
  | JSString (s : string)
  | JSArray (elems : list JSValue)
  | JSObject.
#[local] Set Warnings "+register-all".

Definition typeof (v : JSValue) : string :=
  match v with
  | JSUndefined => "undefined"
  | JSNull => "object"
  | JSBoolean _ => "boolean"
  | JSNumber _ => "number"
  | JSString _ => "string"
  | JSArray _ => "object"
  | JSObject => "object"
  end.

(** [isCoord].  The source's [every] skips holes, so it also accepts a
    sparse array of length 2; such arrays are outside [JSValue], and reading
    their entries gives [undefined], which the arithmetic of [canMove] turns
    into NaN as [asNumber] does. *)
Definition isCoord (token : JSValue) : bool :=
  match token with
  | JSArray elems =>
      Nat.eqb (List.length elems) 2
      && forallb (fun val => String.eqb (typeof val) "number") elems
  | _ => false
  end.

Definition pieceTypes : list PieceType := [king; pawn].

Definition isPieceType (value : JSValue) : bool :=
  String.eqb (typeof value) "string"
  && match value with
     | JSString s => existsb (fun t => String.eqb (tag t) s) pieceTypes
     | _ => false
     end.

(** What a value denotes once a type guard has narrowed it.  These are only
    applied behind [isCoord] and [isPieceType]; [narrow_coord] and
    [narrow_pieceType] below show that the fallbacks are then never taken. *)
Definition asNumber (v : JSValue) : number :=
  match v with JSNumber n => n | _ => JS_NaN end.

Definition index (v : JSValue) (i : nat) : JSValue :=
  match v with JSArray elems => nth i elems JSUndefined | _ => JSUndefined end.

Definition asCoord (token : JSValue) : Coord :=
  (asNumber (index token 0), asNumber (index token 1)).

Definition asPieceType (value : JSValue) : PieceType :=
  match value with
  | JSString s => if String.eqb s (tag king) then king else pawn
  | _ => pawn
  end.

(** ** Drag payloads and events *)

(** [source.data] of a drag: the fields the handlers read.  A property that
    is absent reads as [JSUndefined]. *)
Record SourceData : Type := mkSource {
  src_location : JSValue;
  src_pieceType : JSValue
}.

(** [data] of a drop target. *)
Record DropTarget : Type := mkTarget {
  target_location : JSValue
}.

(** The argument of the monitor's [onDrop]: [source.data] and
    [location.current.dropTargets]. *)
Record DropEvent : Type := mkDrop {
  source : SourceData;
  dropTargets : list DropTarget
}.

(** The payload a [Piece] registers with [getInitialData]. *)
Definition getInitialData (loc : Coord) (pieceType : PieceType) : SourceData :=
  mkSource (JSArray [JSNumber (fst loc); JSNumber (snd loc)])
           (JSString (tag pieceType)).

(** The data a [Square] registers with [getData]. *)
Definition getData (loc : Coord) : DropTarget :=
  mkTarget (JSArray [JSNumber (fst loc); JSNumber (snd loc)]).

(** ** The drop monitor of [Chessboard] *)

(** [p !== piece], where [piece] is the result of [find]: an object or
    [undefined]. *)
Definition strict_ne (p : PieceRecord) (piece : option PieceRecord) : bool :=
  match piece with
  | Some q => negb (Nat.eqb (oid p) (oid q))
  | None => true
  end.

(** The identity of a newly created object differs from that of every
    object in the array. *)
Definition fresh_oid (pieces : list PieceRecord) : nat :=
  S (list_max (map oid pieces)).

(** [onDrop] of [monitorForElements].  The result is the argument of
    [setPieces] when the handler calls it, [None] when it returns without. *)
Definition onDrop (pieces : list PieceRecord) (ev : DropEvent)
    : option (list PieceRecord) :=
  match dropTargets ev with
  | [] => None
  | destination :: _ =>
      let destinationLocation := target_location destination in
      let sourceLocation := src_location (source ev) in
      let pieceType := src_pieceType (source ev) in
      if negb (isCoord destinationLocation)
         || negb (isCoord sourceLocation)
         || negb (isPieceType pieceType)
      then None
      else
        let piece :=
          find (fun p => isEqualCoord (location p) (asCoord sourceLocation))
               pieces in
        let restOfPieces := filter (fun p => strict_ne p piece) pieces in
        match canMove (asCoord sourceLocation) (asCoord destinationLocation)
                      (asPieceType pieceType) pieces, piece with
        | true, Some found =>
            Some (mkPiece (fresh_oid pieces) (type found)
                          (asCoord destinationLocation)
                  :: restOfPieces)
        | _, _ => None
        end
  end.

(** The initial state of [Chessboard]. *)
Definition initialPieces : list PieceRecord :=
  [ mkPiece 0 king (coord 3 2); mkPiece 1 pawn (coord 1 6) ].

(** One drop event against the current state. *)
Definition dropStep (pieces : list PieceRecord) (ev : DropEvent)
    : list PieceRecord :=
  match onDrop pieces ev with
  | Some next => next
  | None => pieces
  end.

(** The boards the component can hold. *)
Inductive reachable : list PieceRecord -> Prop :=
  | reach_initial : reachable initialPieces
  | reach_drop pieces ev :
      reachable pieces -> reachable (dropStep pieces ev).

(** ** The drop target callbacks of [Square] *)

Inductive HoveredState : Type := idle | validMove | invalidMove.

(** [canDrop]: whether the square offers itself as a target for the drag. *)
Definition canDrop (squareLocation : Coord) (src : SourceData) : bool :=
  if negb (isCoord (src_location src)) then false
  else negb (isEqualCoord (asCoord (src_location src)) squareLocation).

(** [onDragEnter]: the argument of [setState], if it is called. *)
Definition onDragEnter (pieces : list PieceRecord) (squareLocation : Coord)
    (src : SourceData) : option HoveredState :=
  if negb (isCoord (src_location src)) || negb (isPieceType (src_pieceType src))
  then None
  else if canMove (asCoord (src_location src)) squareLocation
                  (asPieceType (src_pieceType src)) pieces
       then Some validMove
       else Some invalidMove.

Definition onDragLeave : option HoveredState := Some idle.
Definition onSquareDrop : option HoveredState := Some idle.

Inductive SquareEvent : Type :=
  | DragEnter (src : SourceData)
  | DragLeave
  | Drop.

(** The hover state of a square after one event. *)
Definition squareStep (pieces : list PieceRecord) (squareLocation : Coord)
    (state : HoveredState) (ev : SquareEvent) : HoveredState :=
  let call :=
    match ev with
    | DragEnter src => onDragEnter pieces squareLocation src
    | DragLeave => onDragLeave
    | Drop => onSquareDrop
    end in
  match call with
  | Some next => next
  | None => state
  end.

(** ** Vocabulary of the statements *)

(** Some piece of the board sits on [c], as [canMove] tests it. *)
Definition occupied (c : Coord) (pieces : list PieceRecord) : bool :=
  existsb (fun piece => isEqualCoord (location piece) c) pieces.

(** The pieces of the board that sit on [c]. *)
Definition piecesAt (c : Coord) (pieces : list PieceRecord) : list PieceRecord :=
  filter (fun piece => isEqualCoord (location piece) c) pieces.

(** The array holds each object once. *)
Definition distinct_objects (pieces : list PieceRecord) : Prop :=
  NoDup (map oid pieces).

(** [x] is 0 or 1, as [[0, 1].includes(x)] decides it. *)
Definition zero_or_one (x : number) : Prop :=
  strict_eq x (num 0) = true \/ strict_eq x (num 1) = true.

(** The pawn rule in the specification's words: same column, and
    [destination.row - origin.row == -1]. *)
Definition spec_pawn_rule (origin destination : Coord) : bool :=
  strict_eq (Math_abs (num_sub (snd origin) (snd destination))) (num 0)
  && strict_eq (num_sub (fst destination) (fst origin)) (num_neg (num 1)).

(** The integers whose doubles the arithmetic lemmas enumerate; the board's
    rows and columns, 0 to 7, are among them. *)
Definition small_range : list Z :=
  map (fun n => (Z.of_nat n - 64)%Z) (seq 0 129).

Definition small (z : Z) : Prop := (-64 <= z <= 64)%Z.

(** What [canMove] computes from two rows or two columns, against what the
    integers say. *)
Definition deltas_agree (a b : Z) : bool :=
  let d := num_sub (num a) (num b) in
  Bool.eqb (strict_eq (Math_abs d) (num 0)) (Z.eqb a b)
  && Bool.eqb (strict_eq (Math_abs d) (num 1)) (Z.eqb (Z.abs (a - b)) 1)
  && Bool.eqb (strict_eq d (num_neg (num 1))) (Z.eqb (a - b) (-1))
  && Bool.eqb (strict_eq (num a) (num b)) (Z.eqb a b)
  && negb (is_NaN (Math_abs d)).

(** What [x === y] says about two doubles: NaN equals nothing, the two zeros
    equal each other, anything else equals only itself. *)
Definition same_value (x y : number) : Prop :=
  match x, y with
  | S754_zero _, S754_zero _ => True
  | S754_infinity sx, S754_infinity sy => sx = sy
  | S754_finite sx mx ex, S754_finite sy my ey =>
      sx = sy /\ mx = my /\ ex = ey
  | _, _ => False
  end.

(** No two pieces of the board sit on the same square. *)
Fixpoint apart (pieces : list PieceRecord) : Prop :=
  match pieces with
  | [] => True
  | p :: rest =>
      (forall q, In q rest -> isEqualCoord (location p) (location q) = false)
      /\ apart rest
  end.

(** ** More arithmetic: [+], [<] and [%] *)

Definition num_add (x y : number) : number := SFadd prec emax x y.
Definition num_lt (x y : number) : bool := SFltb x y.

(** [n % d], ECMAScript's Number::remainder: NaN when [n] is infinite or [d]
    is zero, [n] when [d] is infinite or [n] is zero, and otherwise
    [n - d * trunc(n / d)], which is exact and takes the sign of [n]. *)
Definition num_rem (n d : number) : number :=
  match n, d with
  | S754_nan, _ | _, S754_nan => S754_nan
  | S754_infinity _, _ => S754_nan
  | _, S754_zero _ => S754_nan
  | _, S754_infinity _ => n
  | S754_zero _, _ => n
  | S754_finite sn mn en, S754_finite _ md ed =>
      let ez := Z.min en ed in
      binary_normalize prec emax
        (cond_Zopp sn (Z.rem (Zpos (fst (shl_align mn en ez)))
                             (Zpos (fst (shl_align md ed ez)))))
        ez sn
  end.

(** ** Rendering: [getColor], the pieces, [renderSquares] *)

Definition getColor (state : HoveredState) (isDark : bool) : string :=
  match state with
  | validMove => "lightgreen"
  | invalidMove => "pink"
  | idle => if isDark then "lightgrey" else "white"
  end.

(** [isDark] of [Square]: [(location[0] + location[1]) % 2 === 1]. *)
Definition isDark (squareLocation : Coord) : bool :=
  strict_eq (num_rem (num_add (fst squareLocation) (snd squareLocation))
                     (num 2))
            (num 1).

(** The two imported images. *)
Inductive Asset : Type := king_png | pawn_png.

(** The props of a [Piece] element. *)
Record PieceProps : Type := mkProps {
  props_location : Coord;
  props_pieceType : PieceType;
  image : Asset;
  alt : string
}.

Definition King (loc : Coord) : PieceProps := mkProps loc king king_png "King".
Definition Pawn (loc : Coord) : PieceProps := mkProps loc pawn pawn_png "Pawn".

Definition pieceLookup (t : PieceType) : Coord -> PieceProps :=
  match t with
  | king => fun loc => King loc
  | pawn => fun loc => Pawn loc
  end.

(** The payload the [Piece] element registers for its drag. *)
Definition pieceData (props : PieceProps) : SourceData :=
  getInitialData (props_location props) (props_pieceType props).

(** A [Square] element: its props.  [sq_children] is [None] when the source
    passes [undefined] for the children. *)
Record SquareElement : Type := mkSquare {
  sq_pieces : list PieceRecord;
  sq_location : Coord;
  sq_children : option PieceProps
}.

(** The body of the inner loop of [renderSquares]. *)
Definition renderSquare (pieces : list PieceRecord) (squareCoord : Coord)
    : SquareElement :=
  let piece :=
    find (fun piece => isEqualCoord (location piece) squareCoord) pieces in
  mkSquare pieces squareCoord
           (match piece with
            | Some found => Some (pieceLookup (type found) squareCoord)
            | None => None
            end).

(** [for (let i = start; i < 8; i++) body(i)]: what the body pushes, in
    order.  [fuel] bounds how many times the condition is tested. *)
Fixpoint for_loop {A : Type} (fuel : nat) (i : number)
    (body : number -> list A) : list A :=
  match fuel with
  | O => []
  | S fuel' =>
      if num_lt i (num 8)
      then body i ++ for_loop fuel' (num_add i (num 1)) body
      else []
  end.

Definition renderSquares (fuel : nat) (pieces : list PieceRecord)
    : list SquareElement :=
  for_loop fuel (num 0) (fun row =>
    for_loop fuel (num 0) (fun col =>
      [renderSquare pieces (row, col)])).

(** The rows and columns of the board, and its squares in row-major order. *)
Definition range8 : list Z := map Z.of_nat (seq 0 8).

Definition grid : list Coord :=
  flat_map (fun r => map (fun c => coord r c) range8) range8.

Definition onGrid (c : Coord) : Prop :=
  exists r k, (0 <= r < 8)%Z /\ (0 <= k < 8)%Z /\ c = coord r k.

(** The boards the component reaches when every drop lands on one of the
    squares it rendered, or on none. *)
Inductive reachable_on_squares : list PieceRecord -> Prop :=
  | on_squares_initial : reachable_on_squares initialPieces
  | on_squares_drop pieces ev :
      reachable_on_squares pieces ->
      (forall target,
          hd_error (dropTargets ev) = Some target ->
          exists sq,
            In sq (renderSquares 9 pieces)
            /\ target = getData (sq_location sq)) ->
      reachable_on_squares (dropStep pieces ev).

(** The boards the component reaches in play: every drag starts on a piece
    it rendered and carries that piece's payload, and every drop lands on
    one of the squares it rendered, or on none. *)
Inductive reachable_by_play : list PieceRecord -> Prop :=
  | play_initial : reachable_by_play initialPieces
  | play_drop pieces ev :
      reachable_by_play pieces ->
      (exists sq props,
          In sq (renderSquares 9 pieces)
          /\ sq_children sq = Some props
          /\ source ev = pieceData props) ->
      (forall target,
          hd_error (dropTargets ev) = Some target ->
          exists sq,
            In sq (renderSquares 9 pieces)
            /\ target = getData (sq_location sq)) ->
      reachable_by_play (dropStep pieces ev).

(** * Properties *)

(** ** Numbers: [===] is a partial equivalence *)

Section StrictEquality.

Lemma compare_cont_Eq (p q : positive) :
  Pos.compare_cont Eq p q = Eq <-> p = q.
Proof. apply Pos.compare_eq_iff. Qed.

Lemma strict_eq_same_value (x y : number) :
  strict_eq x y = true <-> same_value x y.
Proof.
  unfold strict_eq, SFeqb.
  destruct x as [sx|sx| |sx mx ex], y as [sy|sy| |sy my ey]; simpl;
    try (split; [discriminate | contradiction]);
    try (split; [reflexivity | trivial]);
    try (destruct sx; split; (discriminate || contradiction));
    try (destruct sy; split; (discriminate || contradiction)).
  - destruct sx, sy; split; intro H; try reflexivity; discriminate.
  - pose proof (compare_cont_Eq mx my) as Hm.
    pose proof (Z.compare_eq_iff ex ey) as He.
    destruct sx, sy; try (split; [discriminate | intros [H _]; discriminate]);
      destruct (ex ?= ey)%Z; destruct (Pos.compare_cont Eq mx my); simpl;
      split; intro H; try discriminate; repeat split;
      try (apply Hm; reflexivity); try (apply He; reflexivity);
      destruct H as (_ & H1 & H2);
      try (apply Hm in H1; discriminate); try (apply He in H2; discriminate).
Qed.

Lemma same_value_sym (x y : number) : same_value x y -> same_value y x.
Proof.
  destruct x, y; simpl; intuition congruence.
Qed.

Lemma same_value_trans (x y z : number) :
  same_value x y -> same_value y z -> same_value x z.
Proof.
  destruct x, y, z; simpl; intuition congruence.
Qed.

Lemma strict_eq_sym (x y : number) : strict_eq x y = strict_eq y x.
Proof.
  apply eq_true_iff_eq. rewrite !strict_eq_same_value.
  split; apply same_value_sym.
Qed.

Lemma strict_eq_trans (x y z : number) :
  strict_eq x y = true -> strict_eq y z = true -> strict_eq x z = true.
Proof.
  rewrite !strict_eq_same_value. apply same_value_trans.
Qed.

Lemma isEqualCoord_sym (c d : Coord) : isEqualCoord c d = isEqualCoord d c.
Proof.
  unfold isEqualCoord.
  now rewrite (strict_eq_sym (fst c)), (strict_eq_sym (snd c)).
Qed.

Lemma isEqualCoord_trans (c d e : Coord) :
  isEqualCoord c d = true -> isEqualCoord d e = true ->
  isEqualCoord c e = true.
Proof.
  unfold isEqualCoord. rewrite !andb_true_iff.
  intros [H1 H2] [H3 H4]; split; eapply strict_eq_trans; eassumption.
Qed.

End StrictEquality.

(** ** Numbers: subtraction on the doubles of small integers *)

Section SmallIntegers.

Lemma small_in_range (z : Z) : small z -> In z small_range.
Proof.
  intros [Hlo Hhi]. unfold small_range. apply in_map_iff.
  exists (Z.to_nat (z + 64)). split; [lia |].
  apply in_seq. lia.
Qed.

Lemma deltas_agree_range :
  forallb (fun a => forallb (deltas_agree a) small_range) small_range = true.
Proof. vm_compute. reflexivity. Qed.

Lemma deltas_agree_small (a b : Z) :
  small a -> small b -> deltas_agree a b = true.
Proof.
  intros Ha Hb.
  pose proof deltas_agree_range as H.
  rewrite forallb_forall in H.
  specialize (H a (small_in_range a Ha)).
  rewrite forallb_forall in H.
  exact (H b (small_in_range b Hb)).
Qed.

Variables a b : Z.
Hypothesis Ha : small a.
Hypothesis Hb : small b.

Let agree := deltas_agree_small a b Ha Hb.

Lemma small_dist_zero :
  strict_eq (Math_abs (num_sub (num a) (num b))) (num 0) = true <-> a = b.
Proof.
  pose proof agree as H. unfold deltas_agree in H.
  rewrite !andb_true_iff in H. destruct H as [[[[H _] _] _] _].
  apply eqb_prop in H. rewrite H. apply Z.eqb_eq.
Qed.

Lemma small_dist_one :
  strict_eq (Math_abs (num_sub (num a) (num b))) (num 1) = true
  <-> Z.abs (a - b) = 1%Z.
Proof.
  pose proof agree as H. unfold deltas_agree in H.
  rewrite !andb_true_iff in H. destruct H as [[[[_ H] _] _] _].
  apply eqb_prop in H. rewrite H. apply Z.eqb_eq.
Qed.

Lemma small_diff_minus_one :
  strict_eq (num_sub (num a) (num b)) (num_neg (num 1)) = true
  <-> (a - b = -1)%Z.
Proof.
  pose proof agree as H. unfold deltas_agree in H.
  rewrite !andb_true_iff in H. destruct H as [[[_ H] _] _].
  apply eqb_prop in H. rewrite H. apply Z.eqb_eq.
Qed.

Lemma small_strict_eq : strict_eq (num a) (num b) = true <-> a = b.
Proof.
  pose proof agree as H. unfold deltas_agree in H.
  rewrite !andb_true_iff in H. destruct H as [[_ H] _].
  apply eqb_prop in H. rewrite H. apply Z.eqb_eq.
Qed.

End SmallIntegers.

(** ** Numbers: a number minus itself *)

Lemma num_0 : num 0 = S754_zero false.
Proof. reflexivity. Qed.

Lemma num_sub_diag (x : number) :
  is_finite x = true -> num_sub x x = S754_zero false.
Proof.
  destruct x as [s|s| |s m e]; simpl; try discriminate; intros _.
  - destruct s; reflexivity.
  - unfold num_sub, SFsub. rewrite Z.sub_diag. reflexivity.
Qed.

Lemma num_sub_diag_not_finite (x : number) :
  is_finite x = false -> num_sub x x = JS_NaN.
Proof.
  destruct x as [s|s| |s m e]; simpl; try discriminate; intros _.
  - destruct s; reflexivity.
  - reflexivity.
Qed.

Lemma sameValueZero_number (e x : number) :
  is_NaN e = false -> sameValueZero e x = strict_eq x e.
Proof.
  intros He. unfold sameValueZero. rewrite He. simpl. apply strict_eq_sym.
Qed.

Lemma includes_zero_one (x : number) :
  includes [num 0; num 1] x = true <-> zero_or_one x.
Proof.
  unfold includes, zero_or_one, existsb.
  rewrite !sameValueZero_number by reflexivity.
  rewrite orb_false_r, orb_true_iff. reflexivity.
Qed.

Lemma zero_or_one_diag (x : number) :
  zero_or_one (Math_abs (num_sub x x)) <-> is_finite x = true.
Proof.
  destruct (is_finite x) eqn:Hx.
  - rewrite (num_sub_diag x Hx). split; [reflexivity |].
    intros _. left. reflexivity.
  - rewrite (num_sub_diag_not_finite x Hx). split; [| discriminate].
    intros [H | H]; discriminate H.
Qed.

(** ** [canMove]: the occupancy test *)

Section Occupancy.

Variable destination : Coord.

Let at_destination := fun piece => isEqualCoord (location piece) destination.

Lemma occupied_iff (pieces : list PieceRecord) :
  occupied destination pieces = true <->
  exists piece,
    In piece pieces /\ isEqualCoord (location piece) destination = true.
Proof. unfold occupied. apply existsb_exists. Qed.

Lemma find_unoccupied (pieces : list PieceRecord) :
  occupied destination pieces = false <-> find at_destination pieces = None.
Proof.
  unfold occupied, at_destination.
  induction pieces as [|p rest IH]; simpl; [tauto |].
  destruct (isEqualCoord (location p) destination); simpl; [| exact IH].
  split; discriminate.
Qed.

Lemma canMove_occupied start pieceType pieces :
  occupied destination pieces = true ->
  canMove start destination pieceType pieces = false.
Proof.
  intros H. unfold canMove.
  destruct (find _ pieces) eqn:Hfind; [reflexivity |].
  apply find_unoccupied in Hfind. congruence.
Qed.

Lemma canMove_unoccupied start pieceType pieces :
  occupied destination pieces = false ->
  canMove start destination pieceType pieces =
  match pieceType with
  | king =>
      includes [num 0; num 1]
               (Math_abs (num_sub (fst start) (fst destination)))
      && includes [num 0; num 1]
                  (Math_abs (num_sub (snd start) (snd destination)))
  | pawn =>
      strict_eq (Math_abs (num_sub (snd start) (snd destination))) (num 0)
      && strict_eq (num_sub (fst start) (fst destination)) (num_neg (num 1))
  end.
Proof.
  intros H. apply find_unoccupied in H. unfold canMove.
  fold at_destination. rewrite H. reflexivity.
Qed.

Lemma canMove_true_unoccupied start pieceType pieces :
  canMove start destination pieceType pieces = true ->
  occupied destination pieces = false.
Proof.
  intros H. destruct (occupied destination pieces) eqn:Hocc; [| reflexivity].
  rewrite (canMove_occupied _ _ _ Hocc) in H. discriminate.
Qed.

End Occupancy.

(** ** The rules of the two kinds *)

(** C1, as the code has it.  On a board whose destination square is
    unoccupied, [canMove] accepts a pawn move exactly when the column
    distance is 0 and [start[0] - destination[0] === -1]: the destination
    row is the origin row plus one.  On integer coordinates (the board's 0
    to 7, and all of -64 to 64) that reads [c1 = c2] and [r2 = r1 + 1].  With only a pawn at (1,6) on the board, the
    move to (0,6) is rejected and the move to (2,6) is accepted. *)
Theorem pawn_legality :
  (forall start destination pieces,
      occupied destination pieces = false ->
      (canMove start destination pawn pieces = true <->
       strict_eq (Math_abs (num_sub (snd start) (snd destination))) (num 0)
         = true
       /\ strict_eq (num_sub (fst start) (fst destination)) (num_neg (num 1))
         = true))
  /\ (forall r1 c1 r2 c2 pieces,
         small r1 -> small c1 -> small r2 -> small c2 ->
         occupied (coord r2 c2) pieces = false ->
         (canMove (coord r1 c1) (coord r2 c2) pawn pieces = true <->
          c1 = c2 /\ r2 = (r1 + 1)%Z))
  /\ canMove (coord 1 6) (coord 0 6) pawn [mkPiece 0 pawn (coord 1 6)] = false
  /\ canMove (coord 1 6) (coord 2 6) pawn [mkPiece 0 pawn (coord 1 6)] = true.
Proof.
  assert (General : forall start destination pieces,
             occupied destination pieces = false ->
             (canMove start destination pawn pieces = true <->
              strict_eq (Math_abs (num_sub (snd start) (snd destination)))
                        (num 0) = true
              /\ strict_eq (num_sub (fst start) (fst destination))
                           (num_neg (num 1)) = true)).
  { intros start destination pieces Hfree.
    rewrite (canMove_unoccupied _ _ pawn _ Hfree).
    apply andb_true_iff. }
  split; [exact General |].
  split; [| split; reflexivity].
  intros r1 c1 r2 c2 pieces Hr1 Hc1 Hr2 Hc2 Hfree.
  rewrite (General _ _ _ Hfree). unfold coord, fst, snd.
  rewrite (small_dist_zero c1 c2 Hc1 Hc2).
  rewrite (small_diff_minus_one r1 r2 Hr1 Hr2).
  lia.
Qed.

(** The rule at work: from (1,6) the pawn may go to (2,6). *)
Lemma pawn_legality_witness :
  occupied (coord 2 6) [mkPiece 0 pawn (coord 1 6)] = false
  /\ canMove (coord 1 6) (coord 2 6) pawn [mkPiece 0 pawn (coord 1 6)] = true.
Proof.
  assert (Hfree : occupied (coord 2 6) [mkPiece 0 pawn (coord 1 6)] = false)
    by reflexivity.
  split; [exact Hfree |].
  apply (proj1 (proj2 pawn_legality) 1%Z 6%Z 2%Z 6%Z); unfold small; try lia.
  exact Hfree.
Defined.

(** C1 as the specification words it fails on the code: the move from (1,6)
    to (0,6) satisfies "same column, destination row minus origin row is -1"
    on a board where (0,6) is free, and [canMove] rejects it; the move to
    (2,6) does not satisfy it, and [canMove] accepts it. *)
Lemma pawn_direction_counterexample :
  occupied (coord 0 6) [mkPiece 0 pawn (coord 1 6)] = false
  /\ spec_pawn_rule (coord 1 6) (coord 0 6) = true
  /\ canMove (coord 1 6) (coord 0 6) pawn [mkPiece 0 pawn (coord 1 6)] = false
  /\ occupied (coord 2 6) [mkPiece 0 pawn (coord 1 6)] = false
  /\ spec_pawn_rule (coord 1 6) (coord 2 6) = false
  /\ canMove (coord 1 6) (coord 2 6) pawn [mkPiece 0 pawn (coord 1 6)] = true.
Proof. repeat split; reflexivity. Qed.

(** C3.  On a board whose destination square is unoccupied, [canMove] accepts
    a king move exactly when the row distance and the column distance are
    each 0 or 1; on integer coordinates (the board's 0 to 7, and all of -64
    to 64), when [|r1 - r2|] and [|c1 - c2|] are each 0 or 1.  The move of zero distance is accepted when the square is
    unoccupied.  With the king at (3,2) and the pawn at (1,6), the move to
    (4,3) is accepted and the move to (5,2) is rejected. *)
Theorem king_legality :
  (forall start destination pieces,
      occupied destination pieces = false ->
      (canMove start destination king pieces = true <->
       zero_or_one (Math_abs (num_sub (fst start) (fst destination)))
       /\ zero_or_one (Math_abs (num_sub (snd start) (snd destination)))))
  /\ (forall r1 c1 r2 c2 pieces,
         small r1 -> small c1 -> small r2 -> small c2 ->
         occupied (coord r2 c2) pieces = false ->
         (canMove (coord r1 c1) (coord r2 c2) king pieces = true <->
          (Z.abs (r1 - r2) = 0 \/ Z.abs (r1 - r2) = 1)%Z
          /\ (Z.abs (c1 - c2) = 0 \/ Z.abs (c1 - c2) = 1)%Z))
  /\ (forall c pieces,
         is_finite (fst c) = true -> is_finite (snd c) = true ->
         occupied c pieces = false ->
         canMove c c king pieces = true)
  /\ canMove (coord 3 2) (coord 4 3) king initialPieces = true
  /\ canMove (coord 3 2) (coord 5 2) king initialPieces = false.
Proof.
  assert (General : forall start destination pieces,
             occupied destination pieces = false ->
             (canMove start destination king pieces = true <->
              zero_or_one (Math_abs (num_sub (fst start) (fst destination)))
              /\ zero_or_one
                   (Math_abs (num_sub (snd start) (snd destination))))).
  { intros start destination pieces Hfree.
    rewrite (canMove_unoccupied _ _ king _ Hfree).
    rewrite andb_true_iff, !includes_zero_one. reflexivity. }
  split; [exact General |].
  split; [| split; [| split; reflexivity]].
  - intros r1 c1 r2 c2 pieces Hr1 Hc1 Hr2 Hc2 Hfree.
    rewrite (General _ _ _ Hfree). unfold coord, fst, snd, zero_or_one.
    rewrite (small_dist_zero r1 r2 Hr1 Hr2), (small_dist_one r1 r2 Hr1 Hr2).
    rewrite (small_dist_zero c1 c2 Hc1 Hc2), (small_dist_one c1 c2 Hc1 Hc2).
    lia.
  - intros c pieces Hrow Hcol Hfree.
    apply (General _ _ _ Hfree).
    split; apply zero_or_one_diag; assumption.
Qed.

(** The rule at work: the king at (3,2) may go to (4,3). *)
Lemma king_legality_witness :
  occupied (coord 4 3) initialPieces = false
  /\ canMove (coord 3 2) (coord 4 3) king initialPieces = true.
Proof.
  assert (Hfree : occupied (coord 4 3) initialPieces = false) by reflexivity.
  split; [exact Hfree |].
  apply (proj1 (proj2 king_legality) 3%Z 2%Z 4%Z 3%Z); unfold small; try lia.
  exact Hfree.
Defined.

(** ** Occupied destinations *)

Lemma strict_eq_refl_false (x : number) :
  strict_eq x x = false -> x = JS_NaN.
Proof.
  intros H. destruct (strict_eq x x) eqn:E; [discriminate |].
  destruct x as [s|s| |s m e]; try reflexivity;
    exfalso; apply not_true_iff_false in E; apply E;
    apply strict_eq_same_value; simpl; auto.
Qed.

Lemma num_sub_NaN_r (x : number) : num_sub x JS_NaN = JS_NaN.
Proof. destruct x; reflexivity. Qed.

(** No move onto a square with a NaN coordinate is legal. *)
Lemma canMove_NaN_row (start destination : Coord) pieceType pieces :
  fst destination = JS_NaN ->
  canMove start destination pieceType pieces = false.
Proof.
  intros H. unfold canMove. destruct (find _ pieces); [reflexivity |].
  rewrite H, num_sub_NaN_r.
  destruct pieceType; [reflexivity | apply andb_false_r].
Qed.

Lemma canMove_NaN_col (start destination : Coord) pieceType pieces :
  snd destination = JS_NaN ->
  canMove start destination pieceType pieces = false.
Proof.
  intros H. unfold canMove. destruct (find _ pieces); [reflexivity |].
  rewrite H, num_sub_NaN_r.
  destruct pieceType; [apply andb_false_r | reflexivity].
Qed.

(** No move onto the square of a piece of the board is legal: either the
    piece is found there, or its location has a NaN coordinate. *)
Lemma canMove_onto_piece (start : Coord) piece pieceType pieces :
  In piece pieces ->
  canMove start (location piece) pieceType pieces = false.
Proof.
  intros Hin.
  destruct (isEqualCoord (location piece) (location piece)) eqn:Hself.
  - apply canMove_occupied, occupied_iff. exists piece. auto.
  - unfold isEqualCoord in Hself. apply andb_false_iff in Hself.
    destruct Hself as [H | H]; apply strict_eq_refl_false in H.
    + apply canMove_NaN_row, H.
    + apply canMove_NaN_col, H.
Qed.

(** C2.  Whenever some piece of the board has its location equal to the
    destination, [canMove] returns false, whatever the origin and the kind:
    both when "equal" is the [isEqualCoord] of the code and when the
    destination is the very location of a piece.  With the king at (3,2) and
    the pawn at (1,6), the king's move to (1,6) is rejected. *)
Theorem occupied_destination_rejected :
  (forall start destination pieceType pieces,
      (exists piece,
          In piece pieces
          /\ isEqualCoord (location piece) destination = true) ->
      canMove start destination pieceType pieces = false)
  /\ (forall start piece pieceType pieces,
         In piece pieces ->
         canMove start (location piece) pieceType pieces = false)
  /\ canMove (coord 3 2) (coord 1 6) king initialPieces = false.
Proof.
  split; [| split; [| reflexivity]].
  - intros start destination pieceType pieces H.
    apply canMove_occupied, occupied_iff, H.
  - intros start piece pieceType pieces. apply canMove_onto_piece.
Qed.

(** A square next to the king that holds a piece: the king's deltas are
    legal, the destination is occupied, and the move is rejected. *)
Lemma occupied_destination_rejected_witness :
  canMove (coord 3 2) (coord 4 3) king
          [mkPiece 0 king (coord 3 2); mkPiece 1 pawn (coord 4 3)] = false.
Proof.
  apply (proj1 occupied_destination_rejected).
  exists (mkPiece 1 pawn (coord 4 3)). split.
  - right. left. reflexivity.
  - reflexivity.
Defined.

(** C8.  If some piece of the board has location [c], then
    [canMove(c, c, kind, board)] is false for every kind: the occupancy test
    counts the mover among the occupants.  So no piece of the board can move
    to the square it stands on, and the king's move of zero distance is
    accepted exactly when no piece occupies [c] (and [c] is a pair of finite
    numbers).  With the king at (3,2): rejected on the initial board,
    accepted on the empty board. *)
Theorem self_square_rejected :
  (forall c kind pieces,
      (exists piece,
          In piece pieces /\ isEqualCoord (location piece) c = true) ->
      canMove c c kind pieces = false)
  /\ (forall piece kind pieces,
         In piece pieces ->
         canMove (location piece) (location piece) kind pieces = false)
  /\ (forall c pieces,
         canMove c c king pieces = true <->
         occupied c pieces = false
         /\ is_finite (fst c) = true /\ is_finite (snd c) = true)
  /\ canMove (coord 3 2) (coord 3 2) king initialPieces = false
  /\ canMove (coord 3 2) (coord 3 2) king [] = true.
Proof.
  split; [| split; [| split; [| split; reflexivity]]].
  - intros c kind pieces H. apply canMove_occupied, occupied_iff, H.
  - intros piece kind pieces. apply canMove_onto_piece.
  - intros c pieces. split.
    + intros H. pose proof (canMove_true_unoccupied _ _ _ _ H) as Hfree.
      rewrite (canMove_unoccupied _ _ king _ Hfree) in H.
      rewrite andb_true_iff, !includes_zero_one, !zero_or_one_diag in H.
      tauto.
    + intros (Hfree & Hrow & Hcol).
      rewrite (canMove_unoccupied _ _ king _ Hfree).
      rewrite andb_true_iff, !includes_zero_one, !zero_or_one_diag.
      tauto.
Qed.

(** On the initial board the king stands at (3,2) and cannot move there. *)
Lemma self_square_rejected_witness :
  canMove (coord 3 2) (coord 3 2) king initialPieces = false.
Proof.
  apply (proj1 (proj2 self_square_rejected) (mkPiece 0 king (coord 3 2))).
  left. reflexivity.
Defined.

(** ** The type guards *)

Section Guards.

Lemma isCoord_iff (token : JSValue) :
  isCoord token = true <->
  exists x y, token = JSArray [JSNumber x; JSNumber y].
Proof.
  split.
  - destruct token as [| | | | |elems|]; simpl; try discriminate.
    destruct elems as [|v [|w [|u rest]]]; simpl; try discriminate.
    destruct v, w; simpl; try discriminate. eauto.
  - intros (x & y & ->). reflexivity.
Qed.

Lemma narrow_coord (token : JSValue) :
  isCoord token = true ->
  token = JSArray [JSNumber (fst (asCoord token));
                   JSNumber (snd (asCoord token))].
Proof.
  intros H. apply isCoord_iff in H. destruct H as (x & y & ->). reflexivity.
Qed.

Lemma isPieceType_iff (value : JSValue) :
  isPieceType value = true <-> exists t, value = JSString (tag t).
Proof.
  split.
  - destruct value as [| | | |s| |]; try discriminate.
    unfold isPieceType, typeof, pieceTypes, existsb.
    rewrite andb_true_iff, orb_false_r, orb_true_iff, !String.eqb_eq.
    intros [_ [<- | <-]]; [exists king | exists pawn]; reflexivity.
  - intros ([|] & ->); reflexivity.
Qed.

Lemma narrow_pieceType (value : JSValue) :
  isPieceType value = true -> value = JSString (tag (asPieceType value)).
Proof.
  intros H. apply isPieceType_iff in H. destruct H as ([|] & ->); reflexivity.
Qed.

Lemma asCoord_pair (x y : number) :
  asCoord (JSArray [JSNumber x; JSNumber y]) = (x, y).
Proof. reflexivity. Qed.

Lemma asPieceType_tag (t : PieceType) : asPieceType (JSString (tag t)) = t.
Proof. destruct t; reflexivity. Qed.

End Guards.

(** ** The drop monitor, case by case *)

Section DropCases.

Variable pieces : list PieceRecord.
Variable ev : DropEvent.

Let origin := asCoord (src_location (source ev)).
Let kind := asPieceType (src_pieceType (source ev)).

(** The handler calls [setPieces] exactly when there is a first drop
    target, the three guards pass, a piece is found at the origin and
    [canMove] approves; the new array is the relocated piece followed by
    those that [filter] keeps. *)
Lemma onDrop_commits (next : list PieceRecord) :
  onDrop pieces ev = Some next <->
  exists destination others found,
    dropTargets ev = destination :: others
    /\ isCoord (target_location destination) = true
    /\ isCoord (src_location (source ev)) = true
    /\ isPieceType (src_pieceType (source ev)) = true
    /\ find (fun p => isEqualCoord (location p) origin) pieces = Some found
    /\ canMove origin (asCoord (target_location destination)) kind pieces
       = true
    /\ next =
       mkPiece (fresh_oid pieces) (type found)
               (asCoord (target_location destination))
       :: filter (fun p => strict_ne p (Some found)) pieces.
Proof.
  unfold onDrop, origin, kind.
  destruct (dropTargets ev) as [|destination others].
  { split; [discriminate | intros (? & ? & ? & H & _); discriminate]. }
  destruct (isCoord (target_location destination)) eqn:Hd; simpl;
    [| split; [discriminate
              | intros (? & ? & ? & H & H' & _); injection H as <- _;
                congruence]].
  destruct (isCoord (src_location (source ev))) eqn:Hs; simpl;
    [| split; [discriminate | intros (? & ? & ? & _ & _ & H & _);
                              discriminate]].
  destruct (isPieceType (src_pieceType (source ev))) eqn:Ht; simpl;
    [| split; [discriminate | intros (? & ? & ? & _ & _ & _ & H & _);
                              discriminate]].
  destruct (canMove _ _ _ pieces) eqn:Hmove;
    destruct (find _ pieces) as [found|] eqn:Hfind.
  - split.
    + intros H. injection H as <-. exists destination, others, found.
      repeat split; assumption.
    + intros (d & o & f & H & _ & _ & _ & Hf & _ & ->).
      injection H as <- <-. injection Hf as <-. reflexivity.
  - split; [discriminate |].
    intros (d & o & f & H & _ & _ & _ & Hf & _). discriminate.
  - split; [discriminate |].
    intros (d & o & f & H & _ & _ & _ & _ & Hm & _).
    injection H as <- <-. congruence.
  - split; [discriminate |].
    intros (d & o & f & H & _ & _ & _ & Hf & _). discriminate.
Qed.

End DropCases.

(** ** Lists: the element [find] returns and the ones [filter] keeps *)

Section FindFilter.

Context {A : Type}.
Variable f : A -> bool.

Lemma find_split (l : list A) (x : A) :
  find f l = Some x ->
  exists before after,
    l = before ++ x :: after
    /\ f x = true
    /\ forall y, In y before -> f y = false.
Proof.
  induction l as [|a l IH]; simpl; [discriminate |].
  destruct (f a) eqn:Ha.
  - intros H. injection H as <-. exists [], l. simpl.
    repeat split; auto. intros y [].
  - intros H. destruct (IH H) as (before & after & -> & Hx & Hbefore).
    exists (a :: before), after. simpl. repeat split; auto.
    intros y [<- | Hy]; auto.
Qed.

End FindFilter.

Lemma filter_keeps_others (found : PieceRecord) (l : list PieceRecord) :
  ~ In (oid found) (map oid l) ->
  filter (fun p => strict_ne p (Some found)) l = l.
Proof.
  induction l as [|a l IH]; simpl; [reflexivity |].
  intros H. destruct (Nat.eqb_spec (oid a) (oid found)) as [E | E]; simpl.
  - exfalso. apply H. left. exact E.
  - f_equal. apply IH. intros Hin. apply H. right. exact Hin.
Qed.

Lemma filter_removes_found (found : PieceRecord) (before after : list PieceRecord) :
  distinct_objects (before ++ found :: after) ->
  filter (fun p => strict_ne p (Some found)) (before ++ found :: after)
  = before ++ after.
Proof.
  unfold distinct_objects. intros H. rewrite map_app in H. simpl in H.
  apply NoDup_remove in H. destruct H as [_ Hnot].
  assert (E : strict_ne found (Some found) = false)
    by (unfold strict_ne; rewrite Nat.eqb_refl; reflexivity).
  rewrite filter_app. cbn [filter]. rewrite E.
  rewrite !filter_keeps_others; [reflexivity | |];
    intros Hin; apply Hnot, in_or_app; auto.
Qed.

(** ** Object identities *)

Section Identities.

Lemma oid_le_max (pieces : list PieceRecord) (p : PieceRecord) :
  In p pieces -> oid p <= list_max (map oid pieces).
Proof.
  intros Hin.
  assert (H : Forall (fun k => k <= list_max (map oid pieces))
                     (map oid pieces))
    by (apply list_max_le; lia).
  rewrite Forall_forall in H. apply H, in_map, Hin.
Qed.

Lemma fresh_oid_is_fresh (pieces : list PieceRecord) :
  ~ In (fresh_oid pieces) (map oid pieces).
Proof.
  intros Hin. apply in_map_iff in Hin. destruct Hin as (p & Hp & Hin).
  apply oid_le_max in Hin. unfold fresh_oid in Hp. lia.
Qed.

Lemma initial_distinct_objects : distinct_objects initialPieces.
Proof.
  unfold distinct_objects. simpl.
  repeat constructor; simpl; intuition discriminate.
Qed.

Lemma dropStep_distinct_objects pieces ev :
  distinct_objects pieces -> distinct_objects (dropStep pieces ev).
Proof.
  intros Hd. unfold dropStep.
  destruct (onDrop pieces ev) as [next|] eqn:Hdrop; [| exact Hd].
  apply onDrop_commits in Hdrop.
  destruct Hdrop as (destination & others & found & _ & _ & _ & _
                     & Hfind & _ & ->).
  destruct (find_split _ _ _ Hfind) as (before & after & Hsplit & _ & _).
  subst pieces.
  rewrite (filter_removes_found _ _ _ Hd).
  pose proof (fresh_oid_is_fresh (before ++ found :: after)) as Hfresh.
  unfold distinct_objects in *. cbn [map oid].
  rewrite map_app in *. cbn [map] in *.
  constructor.
  - intros Hin. apply Hfresh. apply in_app_or in Hin.
    apply in_or_app. cbn [In]. tauto.
  - eapply NoDup_remove_1. exact Hd.
Qed.

Lemma reachable_distinct_objects pieces :
  reachable pieces -> distinct_objects pieces.
Proof.
  induction 1 as [|pieces ev _ IH].
  - exact initial_distinct_objects.
  - apply dropStep_distinct_objects, IH.
Qed.

End Identities.

(** ** The commit *)

(** C4.  The drop handler commits whenever the event has a first drop
    target, its three payload fields pass the guards, a piece of the board
    stands at the origin and [canMove] approves, on a board that holds each
    object once: it then calls [setPieces] with the first piece [found] at
    the origin relocated to the destination, followed by every other piece
    of the old array, unchanged and in order, so the length is the old
    length.  Conversely every commit is of this form.  When no piece sits at
    the origin nothing is committed, and the board stays as it is.  Every
    board the component reaches holds each object once. *)
Theorem commit_frame :
  (forall pieces ev destination others,
      distinct_objects pieces ->
      dropTargets ev = destination :: others ->
      isCoord (target_location destination) = true ->
      isCoord (src_location (source ev)) = true ->
      isPieceType (src_pieceType (source ev)) = true ->
      occupied (asCoord (src_location (source ev))) pieces = true ->
      canMove (asCoord (src_location (source ev)))
              (asCoord (target_location destination))
              (asPieceType (src_pieceType (source ev))) pieces = true ->
      exists found before after,
        pieces = before ++ found :: after
        /\ isEqualCoord (location found)
                        (asCoord (src_location (source ev))) = true
        /\ (forall p,
               In p before ->
               isEqualCoord (location p)
                            (asCoord (src_location (source ev))) = false)
        /\ onDrop pieces ev =
           Some (mkPiece (fresh_oid pieces) (type found)
                         (asCoord (target_location destination))
                 :: before ++ after)
        /\ dropStep pieces ev =
           mkPiece (fresh_oid pieces) (type found)
                   (asCoord (target_location destination))
           :: before ++ after
        /\ List.length (dropStep pieces ev) = List.length pieces)
  /\ (forall pieces ev next,
      distinct_objects pieces ->
      onDrop pieces ev = Some next ->
      exists destination found before after,
        hd_error (dropTargets ev) = Some destination
        /\ isCoord (target_location destination) = true
        /\ isCoord (src_location (source ev)) = true
        /\ isPieceType (src_pieceType (source ev)) = true
        /\ find (fun p =>
                   isEqualCoord (location p)
                                (asCoord (src_location (source ev))))
                pieces = Some found
        /\ canMove (asCoord (src_location (source ev)))
                   (asCoord (target_location destination))
                   (asPieceType (src_pieceType (source ev))) pieces = true
        /\ isEqualCoord (location found)
                        (asCoord (src_location (source ev))) = true
        /\ pieces = before ++ found :: after
        /\ next =
           mkPiece (fresh_oid pieces) (type found)
                   (asCoord (target_location destination))
           :: before ++ after
        /\ List.length next = List.length pieces)
  /\ (forall pieces ev,
         occupied (asCoord (src_location (source ev))) pieces = false ->
         onDrop pieces ev = None /\ dropStep pieces ev = pieces)
  /\ (forall pieces, reachable pieces -> distinct_objects pieces).
Proof.
  split; [| split; [| split]].
  - intros pieces ev destination others Hd Htargets Hdest Hsrc Hkind Hocc
           Hmove.
    destruct (find (fun p =>
                      isEqualCoord (location p)
                                   (asCoord (src_location (source ev))))
                   pieces) as [found|] eqn:Hfind;
      [| apply find_unoccupied in Hfind; congruence].
    destruct (find_split _ _ _ Hfind)
      as (before & after & Hsplit & Hat & Hbefore).
    exists found, before, after.
    assert (Hdrop : onDrop pieces ev =
                    Some (mkPiece (fresh_oid pieces) (type found)
                                  (asCoord (target_location destination))
                          :: before ++ after)).
    { apply onDrop_commits. exists destination, others, found.
      repeat split; try assumption.
      f_equal. rewrite Hsplit in Hd |- *.
      rewrite (filter_removes_found _ _ _ Hd). reflexivity. }
    split; [exact Hsplit |]. split; [exact Hat |]. split; [exact Hbefore |].
    split; [exact Hdrop |].
    unfold dropStep. rewrite Hdrop. split; [reflexivity |].
    rewrite Hsplit at 2.
    cbn [List.length]. rewrite !length_app. cbn [List.length]. lia.
  - intros pieces ev next Hd Hdrop.
    apply onDrop_commits in Hdrop.
    destruct Hdrop as (destination & others & found & Htargets & Hdest & Hsrc
                       & Hkind & Hfind & Hmove & ->).
    destruct (find_split _ _ _ Hfind) as (before & after & Hsplit & Hat & _).
    exists destination, found, before, after.
    rewrite Htargets. repeat split; try assumption.
    + rewrite Hsplit at 2. rewrite Hsplit in Hd.
      rewrite (filter_removes_found _ _ _ Hd). reflexivity.
    + rewrite Hsplit at 2 3. rewrite Hsplit in Hd.
      rewrite (filter_removes_found _ _ _ Hd).
      cbn [List.length]. rewrite !length_app. cbn [List.length]. lia.
  - intros pieces ev Hfree.
    assert (Hnone : onDrop pieces ev = None).
    { destruct (onDrop pieces ev) as [next|] eqn:Hdrop; [| reflexivity].
      apply onDrop_commits in Hdrop.
      destruct Hdrop as (? & ? & found & _ & _ & _ & _ & Hfind & _).
      apply find_unoccupied in Hfree. congruence. }
    split; [exact Hnone |]. unfold dropStep. rewrite Hnone. reflexivity.
  - exact reachable_distinct_objects.
Qed.

(** The king of the initial board dropped on (4,3): the handler commits, the
    board keeps its two pieces, the king is at (4,3) and the pawn is where
    it was. *)
Lemma commit_frame_witness :
  exists found before after,
    initialPieces = before ++ found :: after
    /\ isEqualCoord (location found) (coord 3 2) = true
    /\ (forall p,
           In p before -> isEqualCoord (location p) (coord 3 2) = false)
    /\ onDrop initialPieces
              (mkDrop (getInitialData (coord 3 2) king) [getData (coord 4 3)])
       = Some (mkPiece (fresh_oid initialPieces) (type found) (coord 4 3)
               :: before ++ after)
    /\ dropStep initialPieces
                (mkDrop (getInitialData (coord 3 2) king)
                        [getData (coord 4 3)])
       = mkPiece (fresh_oid initialPieces) (type found) (coord 4 3)
         :: before ++ after
    /\ List.length
         (dropStep initialPieces
                   (mkDrop (getInitialData (coord 3 2) king)
                           [getData (coord 4 3)]))
       = List.length initialPieces.
Proof.
  exact (proj1 commit_frame initialPieces
               (mkDrop (getInitialData (coord 3 2) king)
                       [getData (coord 4 3)])
               (getData (coord 4 3)) []
               initial_distinct_objects eq_refl eq_refl eq_refl eq_refl
               eq_refl eq_refl).
Defined.

(** The same drop, evaluated: the new array is the king at (4,3), a new
    object, followed by the pawn, the object it was. *)
Example commit_frame_example :
  onDrop initialPieces
         (mkDrop (getInitialData (coord 3 2) king) [getData (coord 4 3)])
  = Some [mkPiece 2 king (coord 4 3); mkPiece 1 pawn (coord 1 6)].
Proof. reflexivity. Qed.

(** ** Drops that change nothing *)

(** C5.  A drop with no drop target under the release point, or with a
    destination, an origin or a piece kind that fails its guard, or with no
    piece of the board at the origin, or that [canMove] rejects, makes the
    handler return without calling [setPieces]: the board is unchanged.  The
    handler is a total function: it raises nothing. *)
Theorem silent_noop :
  forall pieces ev,
    (dropTargets ev = []
     \/ exists destination others,
         dropTargets ev = destination :: others
         /\ (isCoord (target_location destination) = false
             \/ isCoord (src_location (source ev)) = false
             \/ isPieceType (src_pieceType (source ev)) = false
             \/ find (fun p =>
                        isEqualCoord (location p)
                                     (asCoord (src_location (source ev))))
                     pieces = None
             \/ canMove (asCoord (src_location (source ev)))
                        (asCoord (target_location destination))
                        (asPieceType (src_pieceType (source ev))) pieces
                = false)) ->
    onDrop pieces ev = None /\ dropStep pieces ev = pieces.
Proof.
  intros pieces ev H.
  assert (Hnone : onDrop pieces ev = None).
  { destruct (onDrop pieces ev) as [next|] eqn:Hdrop; [| reflexivity].
    apply onDrop_commits in Hdrop.
    destruct Hdrop as (destination & others & found & Htargets & Hdest & Hsrc
                       & Hkind & Hfind & Hmove & _).
    destruct H as [H | (d & o & H & Hcase)]; [congruence |].
    rewrite Htargets in H. injection H as <- <-.
    destruct Hcase as [Hc | [Hc | [Hc | [Hc | Hc]]]]; congruence. }
  split; [exact Hnone |]. unfold dropStep. rewrite Hnone. reflexivity.
Qed.

(** On the initial board: a drop outside every square; a drop of the king
    on (5,2), which [canMove] rejects; a drop from the empty square (0,0). *)
Lemma silent_noop_witness :
  dropStep initialPieces (mkDrop (getInitialData (coord 3 2) king) [])
  = initialPieces
  /\ dropStep initialPieces
              (mkDrop (getInitialData (coord 3 2) king) [getData (coord 5 2)])
     = initialPieces
  /\ dropStep initialPieces
              (mkDrop (getInitialData (coord 0 0) king) [getData (coord 0 1)])
     = initialPieces.
Proof.
  split; [| split].
  - apply silent_noop. left. reflexivity.
  - apply silent_noop. right.
    exists (getData (coord 5 2)), []. split; [reflexivity |].
    do 4 right. reflexivity.
  - apply silent_noop. right.
    exists (getData (coord 0 1)), []. split; [reflexivity |].
    do 3 right. left. reflexivity.
Defined.

(** Payloads that fail a guard, on the initial board: a destination that is
    not an array, an origin with one entry, a kind that is not a piece
    type. *)
Example malformed_drops_ignored :
  onDrop initialPieces
         (mkDrop (getInitialData (coord 3 2) king) [mkTarget JSUndefined])
  = None
  /\ onDrop initialPieces
            (mkDrop (mkSource (JSArray [JSNumber (num 3)]) (JSString "king"))
                    [getData (coord 4 3)])
     = None
  /\ onDrop initialPieces
            (mkDrop (mkSource (JSArray [JSNumber (num 3); JSNumber (num 2)])
                              (JSString "queen"))
                    [getData (coord 4 3)])
     = None.
Proof. repeat split; reflexivity. Qed.

(** ** Hovering over a square *)

(** C6.  On hover-enter, when the payload's location passes [isCoord] and its
    piece type passes [isPieceType], the square's state becomes [validMove]
    if [canMove] from the payload's location to the square, with the
    payload's kind, on the square's current board, returns true, and
    [invalidMove] otherwise; when either guard fails the state stays as it
    was.  On hover-leave and on drop the state becomes [idle]. *)
Theorem hover_classification :
  forall pieces squareLocation state src,
    (isCoord (src_location src) = true ->
     isPieceType (src_pieceType src) = true ->
     squareStep pieces squareLocation state (DragEnter src) =
     if canMove (asCoord (src_location src)) squareLocation
                (asPieceType (src_pieceType src)) pieces
     then validMove else invalidMove)
    /\ (isCoord (src_location src) = false
        \/ isPieceType (src_pieceType src) = false ->
        squareStep pieces squareLocation state (DragEnter src) = state)
    /\ squareStep pieces squareLocation state DragLeave = idle
    /\ squareStep pieces squareLocation state Drop = idle.
Proof.
  intros pieces squareLocation state src.
  unfold squareStep, onDragEnter, onDragLeave, onSquareDrop.
  repeat split.
  - intros -> ->. simpl. destruct (canMove _ _ _ _); reflexivity.
  - intros [-> | ->]; simpl; [| rewrite orb_true_r]; reflexivity.
Qed.

(** A square refuses the drag of the piece that stands on it, and accepts
    the drag of any other piece of the component. *)
Lemma canDrop_own_square (squareLocation loc : Coord) (t : PieceType) :
  canDrop squareLocation (getInitialData loc t)
  = negb (isEqualCoord loc squareLocation).
Proof. destruct loc. reflexivity. Qed.

(** The king of the initial board dragged over (4,3), then over (5,2). *)
Lemma hover_classification_witness :
  squareStep initialPieces (coord 4 3) idle
             (DragEnter (getInitialData (coord 3 2) king)) = validMove
  /\ squareStep initialPieces (coord 5 2) validMove
                (DragEnter (getInitialData (coord 3 2) king)) = invalidMove.
Proof.
  split.
  - exact (proj1 (hover_classification initialPieces (coord 4 3) idle
                    (getInitialData (coord 3 2) king)) eq_refl eq_refl).
  - exact (proj1 (hover_classification initialPieces (coord 5 2) validMove
                    (getInitialData (coord 3 2) king)) eq_refl eq_refl).
Defined.

(** ** One piece per square *)

Section Apart.

Lemma apart_filter (g : PieceRecord -> bool) (pieces : list PieceRecord) :
  apart pieces -> apart (filter g pieces).
Proof.
  induction pieces as [|p rest IH]; simpl; [trivial |].
  intros [Hp Hrest]. destruct (g p); simpl; auto.
  split; [| auto].
  intros q Hq. apply filter_In in Hq. apply Hp, Hq.
Qed.

Lemma initial_apart : apart initialPieces.
Proof.
  simpl. repeat split; intros q Hq; simpl in Hq; [| contradiction].
  destruct Hq as [<- | []]. reflexivity.
Qed.

Lemma dropStep_apart pieces ev : apart pieces -> apart (dropStep pieces ev).
Proof.
  intros Ha. unfold dropStep.
  destruct (onDrop pieces ev) as [next|] eqn:Hdrop; [| exact Ha].
  apply onDrop_commits in Hdrop.
  destruct Hdrop as (destination & others & found & _ & _ & _ & _
                     & _ & Hmove & ->).
  apply canMove_true_unoccupied in Hmove.
  simpl. split; [| apply apart_filter, Ha].
  intros q Hq. apply filter_In in Hq. destruct Hq as [Hq _].
  rewrite isEqualCoord_sym.
  destruct (isEqualCoord (location q) _) eqn:E; [| reflexivity].
  assert (Hocc : occupied (asCoord (target_location destination)) pieces
                 = true)
    by (apply occupied_iff; eauto).
  congruence.
Qed.

Lemma reachable_apart pieces : reachable pieces -> apart pieces.
Proof.
  induction 1 as [|pieces ev _ IH].
  - exact initial_apart.
  - apply dropStep_apart, IH.
Qed.

Lemma apart_piecesAt (c : Coord) (pieces : list PieceRecord) :
  apart pieces -> List.length (piecesAt c pieces) <= 1.
Proof.
  unfold piecesAt.
  induction pieces as [|p rest IH]; simpl; [lia |].
  intros [Hp Hrest]. specialize (IH Hrest).
  destruct (isEqualCoord (location p) c) eqn:Hpc; [| exact IH].
  destruct (filter _ rest) as [|q others] eqn:Hf; simpl; [lia |].
  exfalso.
  assert (Hq : In q (filter (fun piece => isEqualCoord (location piece) c)
                            rest))
    by (rewrite Hf; left; reflexivity).
  apply filter_In in Hq. destruct Hq as [Hin Hqc].
  rewrite isEqualCoord_sym in Hqc.
  pose proof (isEqualCoord_trans _ _ _ Hpc Hqc) as Hpq.
  rewrite (Hp q Hin) in Hpq. discriminate.
Qed.

Lemma apart_nth_lt (pieces : list PieceRecord) :
  apart pieces ->
  forall i j p q,
    i < j ->
    nth_error pieces i = Some p -> nth_error pieces j = Some q ->
    isEqualCoord (location p) (location q) = false.
Proof.
  induction pieces as [|a rest IH]; intros Ha i j p q Hlt Hi Hj.
  - destruct i; discriminate.
  - destruct Ha as [Hhead Hrest].
    destruct j as [|j]; [lia |]. simpl in Hj.
    destruct i as [|i]; simpl in Hi.
    + injection Hi as <-. apply Hhead. eapply nth_error_In, Hj.
    + apply (IH Hrest i j); [lia | assumption | assumption].
Qed.

Lemma apart_nth (pieces : list PieceRecord) :
  apart pieces ->
  forall i j p q,
    i <> j ->
    nth_error pieces i = Some p -> nth_error pieces j = Some q ->
    isEqualCoord (location p) (location q) = false.
Proof.
  intros Ha i j p q Hne Hi Hj.
  destruct (Nat.lt_ge_cases i j) as [Hlt | Hge].
  - eapply apart_nth_lt; eassumption.
  - rewrite isEqualCoord_sym.
    apply (apart_nth_lt pieces Ha j i); [lia | assumption | assumption].
Qed.

End Apart.

(** C7.  Every board reached from the initial one (king at (3,2), pawn at
    (1,6)) by drop events, whatever their payloads, has at most one piece on
    any coordinate, and two pieces at different positions of the array never
    have equal locations. *)
Theorem occupancy_unique :
  forall pieces,
    reachable pieces ->
    (forall c, List.length (piecesAt c pieces) <= 1)
    /\ (forall i j p q,
           i <> j ->
           nth_error pieces i = Some p -> nth_error pieces j = Some q ->
           isEqualCoord (location p) (location q) = false).
Proof.
  intros pieces Hreach. apply reachable_apart in Hreach. split.
  - intros c. apply apart_piecesAt, Hreach.
  - apply apart_nth, Hreach.
Qed.

(** The board after the king went to (4,3) and the pawn to (2,6). *)
Lemma occupancy_unique_witness :
  let ev1 := mkDrop (getInitialData (coord 3 2) king) [getData (coord 4 3)] in
  let ev2 := mkDrop (getInitialData (coord 1 6) pawn) [getData (coord 2 6)] in
  let pieces := dropStep (dropStep initialPieces ev1) ev2 in
  (forall c, List.length (piecesAt c pieces) <= 1)
  /\ (forall i j p q,
         i <> j ->
         nth_error pieces i = Some p -> nth_error pieces j = Some q ->
         isEqualCoord (location p) (location q) = false).
Proof.
  intros ev1 ev2 pieces.
  apply occupancy_unique.
  apply reach_drop, reach_drop, reach_initial.
Defined.

(** ** What the guards let through *)

(** C9.  [isCoord] accepts every array of two numbers, and nothing else:
    negative, fractional and larger-than-7 entries pass, and so do NaN and
    the infinities; no range or integrality is tested.  A drop whose origin
    is any pair of numbers, with a well-formed destination and kind, is
    therefore decided by the lookup of the piece and by [canMove] alone; and
    a pawn standing at row -1 is moved onto the board by such a drop. *)
Theorem isCoord_checks_no_bounds :
  (forall x y : number, isCoord (JSArray [JSNumber x; JSNumber y]) = true)
  /\ (forall token,
         isCoord token = true <->
         exists x y, token = JSArray [JSNumber x; JSNumber y])
  /\ isCoord (JSArray [JSNumber (num (-1)); JSNumber (dyadic 5 (-1))]) = true
  /\ isCoord (JSArray [JSNumber (num 8); JSNumber (num 100)]) = true
  /\ isCoord (JSArray [JSNumber JS_NaN; JSNumber (S754_infinity false)]) = true
  /\ (forall pieces x y kind destination others,
         isCoord (target_location destination) = true ->
         isPieceType kind = true ->
         onDrop pieces
                (mkDrop (mkSource (JSArray [JSNumber x; JSNumber y]) kind)
                        (destination :: others)) =
         match canMove (x, y) (asCoord (target_location destination))
                       (asPieceType kind) pieces,
               find (fun p => isEqualCoord (location p) (x, y)) pieces with
         | true, Some found =>
             Some (mkPiece (fresh_oid pieces) (type found)
                           (asCoord (target_location destination))
                   :: filter (fun p => strict_ne p (Some found)) pieces)
         | _, _ => None
         end)
  /\ onDrop [mkPiece 0 pawn (coord (-1) 3)]
            (mkDrop (getInitialData (coord (-1) 3) pawn) [getData (coord 0 3)])
     = Some [mkPiece 1 pawn (coord 0 3)].
Proof.
  split; [reflexivity |].
  split; [exact isCoord_iff |].
  repeat (split; [reflexivity |]).
  split; [| reflexivity].
  intros pieces x y kind destination others Hdest Hkind.
  unfold onDrop. cbn [dropTargets source src_location src_pieceType].
  rewrite Hdest, Hkind, asCoord_pair.
  change (isCoord (JSArray [JSNumber x; JSNumber y])) with true.
  cbn [negb orb].
  destruct (canMove _ _ _ pieces); [| reflexivity].
  destruct (find _ pieces); reflexivity.
Qed.

(** A drop whose origin is (-1, 2.5), onto (0,3), on the initial board:
    the guards pass and [canMove] is what rejects it. *)
Lemma isCoord_checks_no_bounds_witness :
  onDrop initialPieces
         (mkDrop (mkSource (JSArray [JSNumber (num (-1));
                                     JSNumber (dyadic 5 (-1))])
                           (JSString "pawn"))
                 [getData (coord 0 3)]) =
  match canMove (num (-1), dyadic 5 (-1))
                (asCoord (target_location (getData (coord 0 3))))
                (asPieceType (JSString "pawn")) initialPieces,
        find (fun p => isEqualCoord (location p) (num (-1), dyadic 5 (-1)))
             initialPieces with
  | true, Some found =>
      Some (mkPiece (fresh_oid initialPieces) (type found)
                    (asCoord (target_location (getData (coord 0 3))))
            :: filter (fun p => strict_ne p (Some found)) initialPieces)
  | _, _ => None
  end.
Proof.
  apply (proj1 (proj2 (proj2 (proj2 (proj2 (proj2
           isCoord_checks_no_bounds)))))); reflexivity.
Defined.

(** ** The kind in the payload and the kind on the board *)

(** C10.  The drop handler judges the move by the payload's piece type and
    moves the piece of the board: it commits exactly when the guards pass, a
    piece [found] stands at the origin and [canMove] accepts the move for
    the payload's kind, and the piece it then puts at the destination has
    the type of [found], followed by the pieces [filter] keeps.  So for a
    piece at the origin and a payload of any kind, the drop on a square
    commits when [canMove] accepts that kind and is ignored when it rejects
    it, whatever the stored type allows, and the relocated piece keeps the
    stored type.  With a payload that says "pawn" for the king at (3,2): the
    drop on (4,2), a pawn's move, is committed and leaves a king at (4,2);
    the drop on (3,3), a king's move, is rejected.  With a payload that says
    "king" for the pawn at (1,6): the drop on (1,7), a king's move that no
    pawn may make, is committed and leaves a pawn at (1,7). *)
Theorem committed_piece_keeps_type :
  (forall pieces ev next,
      onDrop pieces ev = Some next <->
      exists destination others found,
        dropTargets ev = destination :: others
        /\ isCoord (target_location destination) = true
        /\ isCoord (src_location (source ev)) = true
        /\ isPieceType (src_pieceType (source ev)) = true
        /\ find (fun p =>
                   isEqualCoord (location p)
                                (asCoord (src_location (source ev))))
                pieces = Some found
        /\ canMove (asCoord (src_location (source ev)))
                   (asCoord (target_location destination))
                   (asPieceType (src_pieceType (source ev))) pieces = true
        /\ next =
           mkPiece (fresh_oid pieces) (type found)
                   (asCoord (target_location destination))
           :: filter (fun p => strict_ne p (Some found)) pieces)
  /\ (forall pieces found origin destination kind others,
         find (fun p => isEqualCoord (location p) origin) pieces
         = Some found ->
         onDrop pieces
                (mkDrop (getInitialData origin kind)
                        (getData destination :: others))
         = if canMove origin destination kind pieces
           then Some (mkPiece (fresh_oid pieces) (type found) destination
                      :: filter (fun p => strict_ne p (Some found)) pieces)
           else None)
  /\ onDrop initialPieces
            (mkDrop (getInitialData (coord 3 2) pawn) [getData (coord 4 2)])
     = Some [mkPiece 2 king (coord 4 2); mkPiece 1 pawn (coord 1 6)]
  /\ canMove (coord 3 2) (coord 4 2) pawn initialPieces = true
  /\ onDrop initialPieces
            (mkDrop (getInitialData (coord 3 2) pawn) [getData (coord 3 3)])
     = None
  /\ canMove (coord 3 2) (coord 3 3) king initialPieces = true
  /\ onDrop initialPieces
            (mkDrop (getInitialData (coord 1 6) king) [getData (coord 1 7)])
     = Some [mkPiece 2 pawn (coord 1 7); mkPiece 0 king (coord 3 2)]
  /\ canMove (coord 1 6) (coord 1 7) pawn initialPieces = false
  /\ canMove (coord 1 6) (coord 1 7) king initialPieces = true.
Proof.
  split; [exact onDrop_commits |].
  split; [| repeat split; reflexivity].
  intros pieces found [ox oy] [dx dy] kind others Hfind.
  unfold onDrop.
  cbn [dropTargets source getInitialData getData src_location src_pieceType
       target_location fst snd].
  rewrite !asCoord_pair, asPieceType_tag.
  change (isCoord (JSArray [JSNumber dx; JSNumber dy])) with true.
  change (isCoord (JSArray [JSNumber ox; JSNumber oy])) with true.
  assert (Hkind : isPieceType (JSString (tag kind)) = true)
    by (destruct kind; reflexivity).
  rewrite Hkind. cbn [negb orb].
  rewrite Hfind. destruct (canMove _ _ kind pieces); reflexivity.
Qed.

(** The pawn of the initial board, dragged with a payload that says "king",
    dropped on (1,7): [canMove] accepts the king's step, and the piece put
    at (1,7) is a pawn. *)
Lemma committed_piece_keeps_type_witness :
  onDrop initialPieces
         (mkDrop (getInitialData (coord 1 6) king) [getData (coord 1 7)])
  = if canMove (coord 1 6) (coord 1 7) king initialPieces
    then Some (mkPiece (fresh_oid initialPieces)
                       (type (mkPiece 1 pawn (coord 1 6))) (coord 1 7)
               :: filter (fun p =>
                            strict_ne p (Some (mkPiece 1 pawn (coord 1 6))))
                         initialPieces)
    else None.
Proof.
  apply (proj1 (proj2 committed_piece_keeps_type)). reflexivity.
Defined.

(** * Further properties of the code *)

(** ** Subtraction: swapping the operands, and operands that are not finite *)

Section Subtraction.

Lemma binary_round_sign (m : positive) (e : Z) :
  binary_round prec emax true m e = SFopp (binary_round prec emax false m e).
Proof.
  unfold binary_round, binary_round_aux.
  destruct (shl_align m e _) as [mz ez].
  destruct (shr_fexp prec emax (Zpos mz) ez loc_Exact) as [mrs e'].
  destruct (shr_fexp prec emax _ e' loc_Exact) as [mrs' e''].
  destruct (shr_m mrs'); try reflexivity.
  destruct (Z.leb e'' _); reflexivity.
Qed.

Lemma binary_normalize_opp (z e : Z) :
  z <> 0%Z ->
  binary_normalize prec emax (- z) e false
  = SFopp (binary_normalize prec emax z e false).
Proof.
  intros Hz. destruct z as [|m|m]; [contradiction | |]; simpl Z.opp;
    unfold binary_normalize; rewrite binary_round_sign.
  - reflexivity.
  - destruct (binary_round prec emax false m e) as [s|s| |s mm ee];
      simpl; try destruct s; reflexivity.
Qed.

(** [y - x] is the opposite of [x - y], unless both are [+0]. *)
Lemma num_sub_swap (x y : number) :
  num_sub y x = num_neg (num_sub x y)
  \/ (num_sub x y = S754_zero false /\ num_sub y x = S754_zero false).
Proof.
  unfold num_sub, num_neg.
  destruct x as [sx|sx| |sx mx ex], y as [sy|sy| |sy my ey];
    try (left; reflexivity);
    try (destruct sx, sy; simpl; auto; fail);
    try (left; simpl; rewrite negb_involutive; reflexivity).
  unfold SFsub. rewrite (Z.min_comm ey ex).
  set (a := cond_Zopp sx _). set (b := cond_Zopp sy _).
  destruct (Z.eq_dec (a - b) 0) as [E | E].
  - right. replace (b - a)%Z with 0%Z by lia. rewrite E. split; reflexivity.
  - left. replace (b - a)%Z with (- (a - b))%Z by lia.
    apply binary_normalize_opp, E.
Qed.

Lemma Math_abs_neg (x : number) : Math_abs (num_neg x) = Math_abs x.
Proof. destruct x; reflexivity. Qed.

Lemma Math_abs_sub_swap (x y : number) :
  Math_abs (num_sub y x) = Math_abs (num_sub x y).
Proof.
  destruct (num_sub_swap x y) as [-> | [-> ->]];
    [apply Math_abs_neg | reflexivity].
Qed.

Lemma num_sub_finite (x y : number) :
  is_finite (num_sub x y) = true ->
  is_finite x = true /\ is_finite y = true.
Proof.
  destruct x as [sx|sx| |sx mx ex], y as [sy|sy| |sy my ey];
    try (intros _; split; reflexivity);
    try (destruct sx; simpl; discriminate);
    try (destruct sx, sy; simpl; discriminate);
    simpl; discriminate.
Qed.

Lemma strict_eq_finite (x c : number) :
  strict_eq x c = true -> is_finite c = true -> is_finite x = true.
Proof.
  rewrite strict_eq_same_value.
  destruct x, c; simpl; try contradiction; try discriminate; reflexivity.
Qed.

Lemma Math_abs_finite (x : number) : is_finite (Math_abs x) = is_finite x.
Proof. destruct x; reflexivity. Qed.

End Subtraction.

(** ** What [canMove] looks at *)

Lemma strict_eq_refl_finite (x : number) :
  is_finite x = true -> strict_eq x x = true.
Proof.
  intros H. apply strict_eq_same_value.
  destruct x; simpl; auto; discriminate.
Qed.

Lemma canMove_deltas_finite (x y c : number) :
  strict_eq (Math_abs (num_sub x y)) c = true -> is_finite c = true ->
  is_finite x = true /\ is_finite y = true.
Proof.
  intros H Hc. apply num_sub_finite. rewrite <- Math_abs_finite.
  eapply strict_eq_finite; eassumption.
Qed.

Lemma canMove_true_finite start destination pieceType pieces :
  canMove start destination pieceType pieces = true ->
  is_finite (fst start) = true /\ is_finite (snd start) = true
  /\ is_finite (fst destination) = true
  /\ is_finite (snd destination) = true.
Proof.
  intros H.
  pose proof (canMove_true_unoccupied _ _ _ _ H) as Hfree.
  rewrite (canMove_unoccupied _ _ _ _ Hfree) in H.
  destruct pieceType; apply andb_true_iff in H; destruct H as [Hrow Hcol].
  - apply includes_zero_one in Hrow, Hcol.
    assert (Hr : is_finite (fst start) = true
                 /\ is_finite (fst destination) = true)
      by (destruct Hrow as [E | E];
          apply (canMove_deltas_finite _ _ _ E); reflexivity).
    assert (Hc : is_finite (snd start) = true
                 /\ is_finite (snd destination) = true)
      by (destruct Hcol as [E | E];
          apply (canMove_deltas_finite _ _ _ E); reflexivity).
    tauto.
  - assert (Hc : is_finite (snd start) = true
                 /\ is_finite (snd destination) = true)
      by (apply (canMove_deltas_finite _ _ _ Hrow); reflexivity).
    assert (Hr : is_finite (fst start) = true
                 /\ is_finite (fst destination) = true)
      by (apply num_sub_finite;
          apply (strict_eq_finite _ _ Hcol); reflexivity).
    tauto.
Qed.

Lemma isEqualCoord_refl_finite (c : Coord) :
  is_finite (fst c) = true -> is_finite (snd c) = true ->
  isEqualCoord c c = true.
Proof.
  intros Hrow Hcol. unfold isEqualCoord.
  rewrite !strict_eq_refl_finite by assumption. reflexivity.
Qed.

(** X1.  [canMove] only ever accepts a move between two pairs of finite
    numbers: a NaN or an infinity in the origin or in the destination makes
    it false, for both kinds and on every board.  So the origin and the
    destination of an accepted move each equal themselves under
    [isEqualCoord], and they differ whenever a piece stands at the origin. *)
Theorem canMove_accepts_finite_only :
  forall start destination pieceType pieces,
    canMove start destination pieceType pieces = true ->
    (is_finite (fst start) = true /\ is_finite (snd start) = true
     /\ is_finite (fst destination) = true
     /\ is_finite (snd destination) = true)
    /\ isEqualCoord start start = true
    /\ isEqualCoord destination destination = true
    /\ (occupied start pieces = true ->
        isEqualCoord start destination = false).
Proof.
  intros start destination pieceType pieces H.
  pose proof (canMove_true_finite _ _ _ _ H) as (Hs1 & Hs2 & Hd1 & Hd2).
  split; [tauto |].
  split; [apply isEqualCoord_refl_finite; assumption |].
  split; [apply isEqualCoord_refl_finite; assumption |].
  intros Hocc. apply not_true_iff_false. intros Heq.
  apply occupied_iff in Hocc. destruct Hocc as (piece & Hin & Hat).
  assert (Hocc : occupied destination pieces = true).
  { apply occupied_iff. exists piece. split; [exact Hin |].
    eapply isEqualCoord_trans; eassumption. }
  rewrite (canMove_occupied _ _ _ _ Hocc) in H. discriminate.
Qed.

(** The king's step from (3,2) to (4,3) on the initial board. *)
Lemma canMove_accepts_finite_only_witness :
  (is_finite (fst (coord 3 2)) = true /\ is_finite (snd (coord 3 2)) = true
   /\ is_finite (fst (coord 4 3)) = true
   /\ is_finite (snd (coord 4 3)) = true)
  /\ isEqualCoord (coord 3 2) (coord 3 2) = true
  /\ isEqualCoord (coord 4 3) (coord 4 3) = true
  /\ (occupied (coord 3 2) initialPieces = true ->
      isEqualCoord (coord 3 2) (coord 4 3) = false).
Proof.
  apply (canMove_accepts_finite_only _ _ king initialPieces). reflexivity.
Defined.

(** X2.  The board matters to [canMove] only through whether the destination
    is occupied: two boards that agree on that give the same answer.  In
    particular the kinds of the pieces, the order of the array, pieces
    standing between origin and destination, and whether any piece stands at
    the origin make no difference. *)
Theorem canMove_reads_destination_only :
  forall start destination pieceType pieces pieces',
    occupied destination pieces = occupied destination pieces' ->
    canMove start destination pieceType pieces
    = canMove start destination pieceType pieces'.
Proof.
  intros start destination pieceType pieces pieces' H.
  destruct (occupied destination pieces') eqn:H'.
  - rewrite !canMove_occupied by assumption. reflexivity.
  - rewrite !(canMove_unoccupied _ _ pieceType) by assumption. reflexivity.
Qed.

(** The king's step to (4,3) is judged alike on the initial board and on the
    empty board, where no king stands at (3,2). *)
Lemma canMove_reads_destination_only_witness :
  canMove (coord 3 2) (coord 4 3) king initialPieces
  = canMove (coord 3 2) (coord 4 3) king [].
Proof.
  apply canMove_reads_destination_only. reflexivity.
Defined.

Lemma strict_eq_abs_of_neg (x c : number) :
  strict_eq x (num_neg c) = true ->
  strict_eq (Math_abs x) (Math_abs c) = true.
Proof.
  rewrite !strict_eq_same_value.
  destruct x, c; simpl; intuition congruence.
Qed.

(** X3.  Every move [canMove] accepts for a pawn it also accepts for a king,
    from the same origin to the same destination on the same board. *)
Theorem pawn_move_is_king_move :
  forall start destination pieces,
    canMove start destination pawn pieces = true ->
    canMove start destination king pieces = true.
Proof.
  intros start destination pieces H.
  pose proof (canMove_true_unoccupied _ _ _ _ H) as Hfree.
  rewrite (canMove_unoccupied _ _ pawn _ Hfree) in H.
  rewrite (canMove_unoccupied _ _ king _ Hfree).
  apply andb_true_iff in H. destruct H as [Hcol Hrow].
  apply andb_true_iff. rewrite !includes_zero_one. split.
  - right. apply (strict_eq_abs_of_neg _ (num 1)), Hrow.
  - left. exact Hcol.
Qed.

Lemma pawn_move_is_king_move_witness :
  canMove (coord 1 6) (coord 2 6) king initialPieces = true.
Proof.
  apply pawn_move_is_king_move. reflexivity.
Defined.

(** X4.  A king's move can be taken back: if [canMove] accepts the king from
    [a] to [b] on some board, it accepts the king from [b] to [a] on every
    board where [a] is unoccupied. *)
Theorem king_move_reversible :
  forall a b pieces pieces',
    canMove a b king pieces = true ->
    occupied a pieces' = false ->
    canMove b a king pieces' = true.
Proof.
  intros a b pieces pieces' H Hfree'.
  pose proof (canMove_true_unoccupied _ _ _ _ H) as Hfree.
  rewrite (canMove_unoccupied _ _ _ _ Hfree) in H.
  rewrite (canMove_unoccupied _ _ _ _ Hfree').
  rewrite (Math_abs_sub_swap (fst a)), (Math_abs_sub_swap (snd a)).
  exact H.
Qed.

(** After the king went from (3,2) to (4,3) it may go back. *)
Lemma king_move_reversible_witness :
  canMove (coord 4 3) (coord 3 2) king
          [mkPiece 2 king (coord 4 3); mkPiece 1 pawn (coord 1 6)] = true.
Proof.
  apply (king_move_reversible (coord 3 2) (coord 4 3) initialPieces);
    reflexivity.
Defined.

Lemma strict_eq_neg_false (x c : number) :
  strict_eq x c = true ->
  match c with S754_zero _ => False | _ => True end ->
  strict_eq (num_neg x) c = false.
Proof.
  intros H Hnz. apply not_true_iff_false. intros H'.
  rewrite strict_eq_same_value in H, H'.
  destruct x as [sx|sx| |sx mx ex], c as [sc|sc| |sc mc ec]; simpl in *;
    try contradiction.
  - destruct sx, sc; simpl in *; congruence.
  - destruct sx, sc; simpl in *; intuition congruence.
Qed.

(** X5.  A pawn's move cannot be taken back: if [canMove] accepts the pawn
    from [a] to [b] on some board, it rejects the pawn from [b] to [a] on
    every board. *)
Theorem pawn_move_irreversible :
  forall a b pieces pieces',
    canMove a b pawn pieces = true ->
    canMove b a pawn pieces' = false.
Proof.
  intros a b pieces pieces' H.
  pose proof (canMove_true_unoccupied _ _ _ _ H) as Hfree.
  rewrite (canMove_unoccupied _ _ _ _ Hfree) in H.
  apply andb_true_iff in H. destruct H as [_ Hrow].
  unfold canMove. destruct (find _ pieces'); [reflexivity |].
  assert (E : strict_eq (num_sub (fst b) (fst a)) (num_neg (num 1)) = false).
  { destruct (num_sub_swap (fst a) (fst b)) as [-> | [Hz _]].
    - apply strict_eq_neg_false; [exact Hrow | exact I].
    - rewrite Hz in Hrow. discriminate Hrow. }
  rewrite E. apply andb_false_r.
Qed.

(** The pawn that went from (1,6) to (2,6) may not go back to (1,6). *)
Lemma pawn_move_irreversible_witness :
  canMove (coord 2 6) (coord 1 6) pawn [] = false.
Proof.
  apply (pawn_move_irreversible (coord 1 6) (coord 2 6) initialPieces).
  reflexivity.
Defined.

(** ** [isEqualCoord] *)

(** X6.  [isEqualCoord] is symmetric and transitive, and a coordinate equals
    itself exactly when neither entry is NaN; it does not tell [-0] from
    [+0]. *)
Theorem isEqualCoord_partial_equivalence :
  (forall c d, isEqualCoord c d = isEqualCoord d c)
  /\ (forall c d e,
         isEqualCoord c d = true -> isEqualCoord d e = true ->
         isEqualCoord c e = true)
  /\ (forall c,
         isEqualCoord c c = true <->
         is_NaN (fst c) = false /\ is_NaN (snd c) = false)
  /\ isEqualCoord (num_neg (num 0), num 3) (num 0, num 3) = true.
Proof.
  split; [exact isEqualCoord_sym |].
  split; [exact isEqualCoord_trans |].
  split; [| reflexivity].
  intros [x y]. unfold isEqualCoord. cbn [fst snd].
  rewrite andb_true_iff, !strict_eq_same_value.
  destruct x, y; simpl; intuition (auto; discriminate).
Qed.

(** The king's square equals itself, and a pair that equals (3,2) in one
    order equals it in the other. *)
Lemma isEqualCoord_partial_equivalence_witness :
  isEqualCoord (coord 3 2) (dyadic 6 (-1), dyadic 4 (-1)) = true.
Proof.
  apply (proj1 (proj2 isEqualCoord_partial_equivalence)
               _ (dyadic 12 (-2), dyadic 8 (-2))); reflexivity.
Defined.

(** ** The payloads the component produces *)

(** X7.  The payload a [Piece] registers and the data a [Square] registers
    pass the guards of the handlers, and narrow back to the coordinate and
    the kind they were built from, whatever the two numbers are. *)
Theorem payload_round_trip :
  forall (loc : Coord) (t : PieceType),
    isCoord (src_location (getInitialData loc t)) = true
    /\ isPieceType (src_pieceType (getInitialData loc t)) = true
    /\ asCoord (src_location (getInitialData loc t)) = loc
    /\ asPieceType (src_pieceType (getInitialData loc t)) = t
    /\ isCoord (target_location (getData loc)) = true
    /\ asCoord (target_location (getData loc)) = loc
    /\ pieceData (pieceLookup t loc) = getInitialData loc t.
Proof.
  intros [x y] t. repeat split; destruct t; reflexivity.
Qed.

(** X8.  [isPieceType] accepts the strings "king" and "pawn" and nothing
    else: no other string, whatever its case, and no value that is not a
    string. *)
Theorem isPieceType_exact :
  (forall value,
      isPieceType value = true <->
      value = JSString "king" \/ value = JSString "pawn")
  /\ isPieceType (JSString "King") = false
  /\ isPieceType (JSString "") = false
  /\ isPieceType JSUndefined = false
  /\ isPieceType (JSArray [JSString "king"]) = false.
Proof.
  split; [| repeat split; reflexivity].
  intros value. rewrite isPieceType_iff. split.
  - intros ([|] & ->); auto.
  - intros [-> | ->]; [exists king | exists pawn]; reflexivity.
Qed.

(** ** What a commit does to the board *)

Section Commit.

Lemma onDrop_no_piece pieces ev :
  occupied (asCoord (src_location (source ev))) pieces = false ->
  onDrop pieces ev = None.
Proof.
  intros Hfree.
  destruct (onDrop pieces ev) as [next|] eqn:Hdrop; [| reflexivity].
  apply onDrop_commits in Hdrop.
  destruct Hdrop as (? & ? & found & _ & _ & _ & _ & Hfind & _).
  apply find_unoccupied in Hfree. congruence.
Qed.

(** A commit, with the array split around the piece it moved. *)
Lemma onDrop_commit_split pieces ev next :
  distinct_objects pieces ->
  onDrop pieces ev = Some next ->
  exists destination found before after,
    hd_error (dropTargets ev) = Some destination
    /\ isEqualCoord (location found) (asCoord (src_location (source ev)))
       = true
    /\ canMove (asCoord (src_location (source ev)))
               (asCoord (target_location destination))
               (asPieceType (src_pieceType (source ev))) pieces = true
    /\ pieces = before ++ found :: after
    /\ next =
       mkPiece (fresh_oid pieces) (type found)
               (asCoord (target_location destination))
       :: before ++ after.
Proof.
  intros Hd Hdrop. apply onDrop_commits in Hdrop.
  destruct Hdrop as (destination & others & found & Htargets & _ & _ & _
                     & Hfind & Hmove & ->).
  destruct (find_split _ _ _ Hfind) as (before & after & Hsplit & Hat & _).
  exists destination, found, before, after.
  rewrite Htargets. repeat split; try assumption.
  rewrite Hsplit at 2. rewrite Hsplit in Hd.
  rewrite (filter_removes_found _ _ _ Hd). reflexivity.
Qed.

Lemma apart_app_found (before after : list PieceRecord) found :
  apart (before ++ found :: after) ->
  forall q, In q (before ++ after) ->
            isEqualCoord (location q) (location found) = false.
Proof.
  induction before as [|a before IH]; simpl; intros [Hhead Hrest] q Hq.
  - rewrite isEqualCoord_sym. apply Hhead, Hq.
  - destruct Hq as [<- | Hq].
    + apply Hhead, in_or_app. right. left. reflexivity.
    + apply IH; assumption.
Qed.

End Commit.

(** X9.  No piece is created, lost or changed in kind: every board the
    component reaches, whatever the drop events, holds exactly one king and
    one pawn. *)
Theorem pieces_conserved :
  forall pieces,
    reachable pieces ->
    Permutation (map type pieces) [king; pawn]
    /\ List.length pieces = 2.
Proof.
  intros pieces Hreach.
  assert (Hperm : Permutation (map type pieces) [king; pawn]).
  { induction Hreach as [|pieces ev Hreach IH]; [reflexivity |].
    unfold dropStep.
    destruct (onDrop pieces ev) as [next|] eqn:Hdrop; [| exact IH].
    apply onDrop_commit_split in Hdrop;
      [| apply reachable_distinct_objects, Hreach].
    destruct Hdrop as (destination & found & before & after & _ & _ & _
                       & Hsplit & ->).
    rewrite <- IH, Hsplit. cbn [map type]. rewrite !map_app. cbn [map].
    apply Permutation_middle. }
  split; [exact Hperm |].
  apply Permutation_length in Hperm. rewrite length_map in Hperm.
  exact Hperm.
Qed.

(** The board after the king went to (4,3) and the pawn to (2,6). *)
Lemma pieces_conserved_witness :
  let ev1 := mkDrop (getInitialData (coord 3 2) king) [getData (coord 4 3)] in
  let ev2 := mkDrop (getInitialData (coord 1 6) pawn) [getData (coord 2 6)] in
  let pieces := dropStep (dropStep initialPieces ev1) ev2 in
  Permutation (map type pieces) [king; pawn] /\ List.length pieces = 2.
Proof.
  intros ev1 ev2 pieces.
  apply pieces_conserved, reach_drop, reach_drop, reach_initial.
Defined.

(** X10.  After a commit on a board with one piece per square and one object
    per slot, no piece is left at the origin, a piece stands at the
    destination, and the same drop event delivered again changes nothing. *)
Theorem commit_vacates_origin :
  forall pieces ev next,
    apart pieces ->
    distinct_objects pieces ->
    onDrop pieces ev = Some next ->
    occupied (asCoord (src_location (source ev))) next = false
    /\ (exists destination,
           hd_error (dropTargets ev) = Some destination
           /\ occupied (asCoord (target_location destination)) next = true)
    /\ onDrop next ev = None
    /\ dropStep next ev = next.
Proof.
  intros pieces ev next Ha Hd Hdrop.
  destruct (onDrop_commit_split _ _ _ Hd Hdrop)
    as (destination & found & before & after & Htarget & Hat & Hmove
        & Hsplit & ->).
  set (origin := asCoord (src_location (source ev))) in *.
  set (dest := asCoord (target_location destination)) in *.
  assert (Hvacant :
            occupied origin
                     (mkPiece (fresh_oid pieces) (type found) dest
                      :: before ++ after) = false).
  { apply not_true_iff_false. intros Hocc.
    apply occupied_iff in Hocc. destruct Hocc as (q & [<- | Hq] & Hqo).
    - cbn [location] in Hqo.
      assert (Hocc : occupied dest pieces = true).
      { apply occupied_iff. exists found. split.
        - rewrite Hsplit. apply in_or_app. right. left. reflexivity.
        - apply (isEqualCoord_trans _ origin); [exact Hat |].
          rewrite isEqualCoord_sym. exact Hqo. }
      rewrite (canMove_occupied _ _ _ _ Hocc) in Hmove. discriminate.
    - rewrite Hsplit in Ha.
      pose proof (apart_app_found _ _ _ Ha q Hq) as Hne.
      rewrite isEqualCoord_sym in Hat.
      rewrite (isEqualCoord_trans _ _ _ Hqo Hat) in Hne. discriminate. }
  split; [exact Hvacant |]. split; [| split].
  - exists destination. split; [exact Htarget |].
    apply occupied_iff. eexists. split; [left; reflexivity |].
    cbn [location]. fold dest.
    destruct (canMove_true_finite _ _ _ _ Hmove) as (_ & _ & Hrow & Hcol).
    apply isEqualCoord_refl_finite; assumption.
  - apply onDrop_no_piece, Hvacant.
  - unfold dropStep. rewrite (onDrop_no_piece _ _ Hvacant). reflexivity.
Qed.

(** The king of the initial board dropped on (4,3), twice. *)
Lemma commit_vacates_origin_witness :
  let ev := mkDrop (getInitialData (coord 3 2) king) [getData (coord 4 3)] in
  let next := [mkPiece 2 king (coord 4 3); mkPiece 1 pawn (coord 1 6)] in
  occupied (asCoord (src_location (source ev))) next = false
  /\ (exists destination,
         hd_error (dropTargets ev) = Some destination
         /\ occupied (asCoord (target_location destination)) next = true)
  /\ onDrop next ev = None
  /\ dropStep next ev = next.
Proof.
  intros ev next.
  apply (commit_vacates_origin initialPieces ev next).
  - exact initial_apart.
  - exact initial_distinct_objects.
  - reflexivity.
Defined.

(** ** Hover and drop *)

(** X11.  The drop handler agrees with the hover callback: a drop whose first
    target is a square commits exactly when that square's [onDragEnter], on
    the same board and payload, reports a valid move and some piece of the
    board stands at the payload's origin. *)
Theorem drop_agrees_with_hover :
  forall pieces squareLocation src others,
    (exists next,
        onDrop pieces (mkDrop src (getData squareLocation :: others))
        = Some next)
    <->
    onDragEnter pieces squareLocation src = Some validMove
    /\ occupied (asCoord (src_location src)) pieces = true.
Proof.
  intros pieces [x y] src others.
  unfold onDragEnter. split.
  - intros [next Hdrop]. apply onDrop_commits in Hdrop.
    destruct Hdrop as (destination & rest & found & Htargets & _ & Hsrc
                       & Hkind & Hfind & Hmove & _).
    cbn [dropTargets source] in *. injection Htargets as <- <-.
    rewrite Hsrc, Hkind. cbn [negb orb].
    change (asCoord (target_location (getData (x, y)))) with (x, y) in Hmove.
    rewrite Hmove. split; [reflexivity |].
    destruct (occupied _ pieces) eqn:Hocc; [reflexivity |].
    apply find_unoccupied in Hocc. congruence.
  - intros [Henter Hocc].
    destruct (isCoord (src_location src)) eqn:Hsrc; [| discriminate].
    destruct (isPieceType (src_pieceType src)) eqn:Hkind; [| discriminate].
    cbn [negb orb] in Henter.
    destruct (canMove _ (x, y) _ pieces) eqn:Hmove; [| discriminate].
    destruct (find (fun p => isEqualCoord (location p)
                                          (asCoord (src_location src)))
                   pieces) as [found|] eqn:Hfind.
    + eexists. apply onDrop_commits.
      exists (getData (x, y)), others, found.
      cbn [dropTargets source]. repeat split; assumption.
    + apply find_unoccupied in Hfind. congruence.
Qed.

(** ** Rendering the squares *)

Section Rendering.

Lemma range8_bounds (i : Z) : In i range8 <-> (0 <= i < 8)%Z.
Proof.
  unfold range8. rewrite in_map_iff. split.
  - intros (n & <- & Hn). apply in_seq in Hn. lia.
  - intros H. exists (Z.to_nat i). split; [lia | apply in_seq; lia].
Qed.

Lemma range8_cases (i : Z) :
  (0 <= i < 8)%Z ->
  i = 0%Z \/ i = 1%Z \/ i = 2%Z \/ i = 3%Z \/ i = 4%Z \/ i = 5%Z
  \/ i = 6%Z \/ i = 7%Z.
Proof. lia. Qed.

(** The loop counter: below 8 the condition holds and [i++] is exact; at 8
    the loop exits. *)
Lemma for_loop_step {A : Type} (fuel : nat) (i : Z)
      (body : number -> list A) :
  (0 <= i < 8)%Z ->
  for_loop (S fuel) (num i) body
  = body (num i) ++ for_loop fuel (num (i + 1)) body.
Proof.
  intros H. apply range8_cases in H.
  repeat (destruct H as [-> | H]); try subst i; reflexivity.
Qed.

Lemma for_loop_exit {A : Type} (fuel : nat) (body : number -> list A) :
  for_loop fuel (num 8) body = [].
Proof. destruct fuel; reflexivity. Qed.

Lemma for_loop_unrolled {A : Type} (k : nat) (body : number -> list A) :
  for_loop (9 + k) (num 0) body = flat_map body (map num range8).
Proof.
  cbn [Nat.add].
  rewrite (for_loop_step _ 0), (for_loop_step _ 1), (for_loop_step _ 2),
    (for_loop_step _ 3), (for_loop_step _ 4), (for_loop_step _ 5),
    (for_loop_step _ 6), (for_loop_step _ 7) by lia.
  cbn [Z.add Pos.add Pos.succ]. rewrite for_loop_exit.
  reflexivity.
Qed.

Lemma renderSquares_unrolled (k : nat) (pieces : list PieceRecord) :
  renderSquares (9 + k) pieces = map (renderSquare pieces) grid.
Proof.
  unfold renderSquares. rewrite for_loop_unrolled.
  rewrite (flat_map_ext _ _ (fun row => for_loop_unrolled k _)).
  reflexivity.
Qed.

Lemma grid_onGrid (c : Coord) : In c grid <-> onGrid c.
Proof.
  unfold grid, onGrid. rewrite in_flat_map. split.
  - intros (r & Hr & Hc). apply in_map_iff in Hc.
    destruct Hc as (k & <- & Hk). apply range8_bounds in Hr, Hk. eauto.
  - intros (r & k & Hr & Hk & ->). exists r.
    split; [apply range8_bounds, Hr |].
    apply in_map, range8_bounds, Hk.
Qed.

Lemma grid_nth (r c : Z) :
  (0 <= r < 8)%Z -> (0 <= c < 8)%Z ->
  nth_error grid (Z.to_nat (8 * r + c)) = Some (coord r c).
Proof.
  intros Hr Hc. apply range8_cases in Hr, Hc.
  repeat (destruct Hr as [-> | Hr]); try subst r;
    repeat (destruct Hc as [-> | Hc]); try subst c; reflexivity.
Qed.

Lemma onGrid_self_equal (c : Coord) : onGrid c -> isEqualCoord c c = true.
Proof.
  intros (r & k & Hr & Hk & ->). unfold isEqualCoord, coord, fst, snd.
  apply andb_true_iff. split; apply small_strict_eq; unfold small; lia.
Qed.

Lemma find_apart (pieces : list PieceRecord) (piece : PieceRecord) :
  apart pieces -> In piece pieces ->
  isEqualCoord (location piece) (location piece) = true ->
  find (fun q => isEqualCoord (location q) (location piece)) pieces
  = Some piece.
Proof.
  intros Ha Hin Hself.
  induction pieces as [|a rest IH]; [contradiction |].
  destruct Ha as [Hhead Hrest]. cbn [find].
  destruct Hin as [-> | Hin].
  - rewrite Hself. reflexivity.
  - rewrite (Hhead piece Hin). apply IH; assumption.
Qed.

End Rendering.

(** X12.  [renderSquares] returns 64 squares, the rows 0 to 7 in order and
    within each row the columns 0 to 7: the square at index [8 * r + c] has
    location [(r, c)].  Both loops leave by their own condition; any bound
    of nine or more tests of it gives this result. *)
Theorem renderSquares_row_major :
  forall (k : nat) (pieces : list PieceRecord),
    map sq_location (renderSquares (9 + k) pieces) = grid
    /\ List.length (renderSquares (9 + k) pieces) = 64
    /\ (forall r c,
           (0 <= r < 8)%Z -> (0 <= c < 8)%Z ->
           nth_error (renderSquares (9 + k) pieces) (Z.to_nat (8 * r + c))
           = Some (renderSquare pieces (coord r c))).
Proof.
  intros k pieces. rewrite renderSquares_unrolled. split; [| split].
  - rewrite map_map. cbn [renderSquare sq_location]. apply map_id.
  - rewrite length_map. reflexivity.
  - intros r c Hr Hc. rewrite nth_error_map, (grid_nth r c Hr Hc).
    reflexivity.
Qed.

(** The square of row 3, column 2 of the initial board shows the king. *)
Lemma renderSquares_row_major_witness :
  nth_error (renderSquares 9 initialPieces) 26
  = Some (mkSquare initialPieces (coord 3 2) (Some (King (coord 3 2)))).
Proof.
  apply (proj2 (proj2 (renderSquares_row_major 0 initialPieces)) 3%Z 2%Z);
    lia.
Defined.

(** X13.  What a rendered square shows: it is a square of the board, it has
    no child exactly when no piece of the board stands on it, and a child it
    has is of the kind of a piece standing on it, with a drag payload that
    names the square and that kind. *)
Theorem rendered_square_shows_board :
  forall (k : nat) (pieces : list PieceRecord) (sq : SquareElement),
    In sq (renderSquares (9 + k) pieces) ->
    onGrid (sq_location sq)
    /\ sq_pieces sq = pieces
    /\ (sq_children sq = None <-> occupied (sq_location sq) pieces = false)
    /\ (forall props,
           sq_children sq = Some props ->
           exists piece,
             In piece pieces
             /\ isEqualCoord (location piece) (sq_location sq) = true
             /\ props_pieceType props = type piece
             /\ pieceData props
                = getInitialData (sq_location sq) (type piece)).
Proof.
  intros k pieces sq Hin. rewrite renderSquares_unrolled in Hin.
  apply in_map_iff in Hin. destruct Hin as (c & <- & Hc).
  apply grid_onGrid in Hc. unfold renderSquare. cbn [sq_location sq_children
                                                     sq_pieces].
  split; [exact Hc |]. split; [reflexivity |].
  destruct (find _ pieces) as [found|] eqn:Hfind.
  - split.
    + split; [discriminate |]. intros Hfree.
      apply find_unoccupied in Hfree. congruence.
    + intros props Hprops. injection Hprops as <-.
      apply find_some in Hfind. destruct Hfind as [Hin Hat].
      exists found. repeat split; try assumption;
        destruct (type found); reflexivity.
  - split; [| discriminate].
    split; [| reflexivity]. intros _. apply find_unoccupied, Hfind.
Qed.

Lemma rendered_square_shows_board_witness :
  onGrid (sq_location (renderSquare initialPieces (coord 1 6)))
  /\ sq_pieces (renderSquare initialPieces (coord 1 6)) = initialPieces
  /\ (sq_children (renderSquare initialPieces (coord 1 6)) = None <->
      occupied (sq_location (renderSquare initialPieces (coord 1 6)))
               initialPieces = false)
  /\ (forall props,
         sq_children (renderSquare initialPieces (coord 1 6)) = Some props ->
         exists piece,
           In piece initialPieces
           /\ isEqualCoord
                (location piece)
                (sq_location (renderSquare initialPieces (coord 1 6)))
              = true
           /\ props_pieceType props = type piece
           /\ pieceData props
              = getInitialData
                  (sq_location (renderSquare initialPieces (coord 1 6)))
                  (type piece)).
Proof.
  apply (rendered_square_shows_board 0 initialPieces).
  apply (nth_error_In _ 14). reflexivity.
Defined.

(** ** Boards reached by drops on rendered squares *)

Section OnSquares.

Lemma reachable_on_squares_reachable pieces :
  reachable_on_squares pieces -> reachable pieces.
Proof.
  induction 1 as [|pieces ev _ IH _]; [apply reach_initial |].
  apply reach_drop, IH.
Qed.

Lemma initial_onGrid :
  forall piece, In piece initialPieces -> onGrid (location piece).
Proof.
  intros piece [<- | [<- | []]]; [exists 3%Z, 2%Z | exists 1%Z, 6%Z];
    (split; [lia | split; [lia | reflexivity]]).
Qed.

Lemma asCoord_getData (c : Coord) : asCoord (target_location (getData c)) = c.
Proof. destruct c. reflexivity. Qed.

End OnSquares.

Lemma on_squares_onGrid pieces :
  reachable_on_squares pieces ->
  forall piece, In piece pieces -> onGrid (location piece).
Proof.
  induction 1 as [|pieces ev Hreach IH Htarget]; [exact initial_onGrid |].
  unfold dropStep.
  destruct (onDrop pieces ev) as [next|] eqn:Hdrop; [| exact IH].
  apply onDrop_commits in Hdrop.
  destruct Hdrop as (destination & others & found & Htargets & _ & _ & _
                     & _ & _ & ->).
  intros piece [<- | Hin].
  - cbn [location].
    destruct (Htarget destination) as (sq & Hsq & ->);
      [rewrite Htargets; reflexivity |].
    rewrite asCoord_getData.
    change 9 with (9 + 0) in Hsq. rewrite renderSquares_unrolled in Hsq.
    apply in_map_iff in Hsq. destruct Hsq as (c & <- & Hc).
    apply grid_onGrid, Hc.
  - apply filter_In in Hin. apply IH, Hin.
Qed.

(** X14.  Pieces never leave the board, and every piece is drawn on its own
    square as its own kind: when every drop lands on a square that
    [renderSquares] produced (or on no target), whatever the drag payloads
    say, each piece of each board reached has an integer row [r] and column
    [c] between 0 and 7, and is the child of the square at index
    [8 * r + c]. *)
Theorem pieces_stay_on_board_and_are_rendered :
  forall pieces piece,
    reachable_on_squares pieces ->
    In piece pieces ->
    exists r c,
      (0 <= r < 8)%Z /\ (0 <= c < 8)%Z
      /\ location piece = coord r c
      /\ nth_error (renderSquares 9 pieces) (Z.to_nat (8 * r + c))
         = Some (mkSquare pieces (coord r c)
                          (Some (pieceLookup (type piece) (coord r c)))).
Proof.
  intros pieces piece Hreach Hin.
  pose proof (on_squares_onGrid pieces Hreach piece Hin) as Hgrid.
  pose proof (onGrid_self_equal _ Hgrid) as Hself.
  destruct Hgrid as (r & c & Hr & Hc & Hloc).
  exists r, c. repeat split; try assumption; try lia.
  change 9 with (9 + 0). rewrite renderSquares_unrolled.
  rewrite nth_error_map, (grid_nth r c) by lia. cbn [option_map].
  unfold renderSquare. rewrite <- Hloc.
  rewrite (find_apart pieces piece); [reflexivity | | exact Hin | exact Hself].
  apply reachable_apart, reachable_on_squares_reachable, Hreach.
Qed.

(** The king, after it was dropped on the square of row 4, column 3. *)
Lemma pieces_stay_on_board_and_are_rendered_witness :
  let pieces :=
    dropStep initialPieces
             (mkDrop (getInitialData (coord 3 2) king) [getData (coord 4 3)])
  in
  exists r c,
    (0 <= r < 8)%Z /\ (0 <= c < 8)%Z
    /\ location (mkPiece 2 king (coord 4 3)) = coord r c
    /\ nth_error (renderSquares 9 pieces) (Z.to_nat (8 * r + c))
       = Some (mkSquare pieces (coord r c)
                        (Some (pieceLookup
                                 (type (mkPiece 2 king (coord 4 3)))
                                 (coord r c)))).
Proof.
  intros pieces.
  apply pieces_stay_on_board_and_are_rendered.
  - apply on_squares_drop; [apply on_squares_initial |].
    intros target Htarget. injection Htarget as <-.
    exists (renderSquare initialPieces (coord 4 3)). split; [| reflexivity].
    apply (nth_error_In _ 35). reflexivity.
  - left. reflexivity.
Defined.

(** ** Colours *)

(** X15.  The board is a checkerboard: the square of row [r], column [c] is
    dark exactly when [r + c] is odd, so squares that share an edge have
    different colours. *)
Theorem squares_alternate :
  forall r c,
    (0 <= r < 8)%Z -> (0 <= c < 8)%Z ->
    isDark (coord r c) = Z.odd (r + c)
    /\ (c < 7 -> isDark (coord r (c + 1)) = negb (isDark (coord r c)))%Z
    /\ (r < 7 -> isDark (coord (r + 1) c) = negb (isDark (coord r c)))%Z.
Proof.
  intros r c Hr Hc.
  assert (Hdark : forall i j, (0 <= i < 8)%Z -> (0 <= j < 8)%Z ->
                              isDark (coord i j) = Z.odd (i + j)).
  { clear. intros i j Hi Hj. apply range8_cases in Hi, Hj.
    repeat (destruct Hi as [-> | Hi]); try subst i;
      repeat (destruct Hj as [-> | Hj]); try subst j; reflexivity. }
  split; [apply Hdark; assumption |]. split; intros Hlt.
  - rewrite !Hdark by lia. rewrite Z.add_assoc, Z.odd_add.
    destruct (Z.odd (r + c)); reflexivity.
  - rewrite !Hdark by lia.
    replace (r + 1 + c)%Z with (r + c + 1)%Z by lia. rewrite Z.odd_add.
    destruct (Z.odd (r + c)); reflexivity.
Qed.

(** The king's first square, row 3 and column 2, is dark; the square to its
    right is light. *)
Lemma squares_alternate_witness :
  isDark (coord 3 2) = true /\ isDark (coord 3 3) = false.
Proof.
  destruct (squares_alternate 3 2) as (H & Hright & _); [lia | lia |].
  split; [exact H |].
  assert (Hlt : (2 < 7)%Z) by lia.
  pose proof (Hright Hlt) as H'. rewrite H in H'. exact H'.
Defined.

(** X16.  The colour of a square follows the hover: after a hover-enter with
    a payload that passes the guards the square is light green exactly when
    [canMove] accepts the move and pink exactly when it rejects it; after a
    hover-leave or a drop it has its board colour again, light grey when
    dark and white when light. *)
Theorem square_colour_follows_hover :
  forall pieces squareLocation state src dark,
    isCoord (src_location src) = true ->
    isPieceType (src_pieceType src) = true ->
    (getColor (squareStep pieces squareLocation state (DragEnter src)) dark
     = "lightgreen"%string
     <-> canMove (asCoord (src_location src)) squareLocation
                 (asPieceType (src_pieceType src)) pieces = true)
    /\ (getColor (squareStep pieces squareLocation state (DragEnter src)) dark
        = "pink"%string
        <-> canMove (asCoord (src_location src)) squareLocation
                    (asPieceType (src_pieceType src)) pieces = false)
    /\ getColor (squareStep pieces squareLocation state DragLeave) dark
       = (if dark then "lightgrey" else "white")%string
    /\ getColor (squareStep pieces squareLocation state Drop) dark
       = (if dark then "lightgrey" else "white")%string.
Proof.
  intros pieces squareLocation state src dark Hsrc Hkind.
  unfold squareStep, onDragEnter. rewrite Hsrc, Hkind. cbn [negb orb].
  destruct (canMove _ squareLocation _ pieces); cbn [getColor];
    repeat split; try discriminate; try reflexivity.
Qed.

Lemma square_colour_follows_hover_witness :
  getColor (squareStep initialPieces (coord 4 3) idle
                       (DragEnter (getInitialData (coord 3 2) king)))
           (isDark (coord 4 3))
  = "lightgreen"%string.
Proof.
  apply (proj1 (square_colour_follows_hover
                  initialPieces (coord 4 3) idle
                  (getInitialData (coord 3 2) king) (isDark (coord 4 3))
                  eq_refl eq_refl)).
  reflexivity.
Defined.

(** ** [canDrop] and [canMove] *)

(** X17.  A square that would show a valid move for a piece of the board is
    one that accepts the drag: if [canMove] accepts the move of a piece from
    where it stands to a square, that square's [canDrop] accepts the piece's
    payload.  A payload whose location fails [isCoord] is refused. *)
Theorem valid_square_accepts_drag :
  (forall pieces piece kind squareLocation,
      In piece pieces ->
      canMove (location piece) squareLocation kind pieces = true ->
      canDrop squareLocation (getInitialData (location piece) kind) = true)
  /\ (forall squareLocation src,
         isCoord (src_location src) = false ->
         canDrop squareLocation src = false).
Proof.
  split.
  - intros pieces piece kind squareLocation Hin Hmove.
    rewrite canDrop_own_square. apply negb_true_iff.
    destruct (isEqualCoord (location piece) squareLocation) eqn:E;
      [| reflexivity].
    assert (Hocc : occupied squareLocation pieces = true)
      by (apply occupied_iff; eauto).
    rewrite (canMove_occupied _ _ _ _ Hocc) in Hmove. discriminate.
  - intros squareLocation src H. unfold canDrop. rewrite H. reflexivity.
Qed.

Lemma valid_square_accepts_drag_witness :
  canDrop (coord 4 3) (getInitialData (coord 3 2) king) = true.
Proof.
  apply (proj1 valid_square_accepts_drag initialPieces
               (mkPiece 0 king (coord 3 2)) king (coord 4 3)).
  - left. reflexivity.
  - reflexivity.
Defined.

(** ** Dragging the pieces that are drawn *)

Section Play.

Lemma reachable_self_equal pieces :
  reachable pieces ->
  forall piece, In piece pieces ->
                isEqualCoord (location piece) (location piece) = true.
Proof.
  induction 1 as [|pieces ev _ IH].
  - intros piece [<- | [<- | []]]; reflexivity.
  - unfold dropStep.
    destruct (onDrop pieces ev) as [next|] eqn:Hdrop; [| exact IH].
    apply onDrop_commits in Hdrop.
    destruct Hdrop as (destination & others & found & _ & _ & _ & _
                       & _ & Hmove & ->).
    intros piece [<- | Hin].
    + cbn [location].
      destruct (canMove_true_finite _ _ _ _ Hmove) as (_ & _ & Hrow & Hcol).
      apply isEqualCoord_refl_finite; assumption.
    + apply filter_In in Hin. apply IH, Hin.
Qed.

Lemma reachable_by_play_on_squares pieces :
  reachable_by_play pieces -> reachable_on_squares pieces.
Proof.
  induction 1 as [|pieces ev _ IH _ Htarget]; [apply on_squares_initial |].
  apply on_squares_drop; assumption.
Qed.

(** The child of a rendered square comes from the piece [find] returns
    there. *)
Lemma rendered_child_found pieces sq props :
  In sq (renderSquares 9 pieces) ->
  sq_children sq = Some props ->
  exists found,
    onGrid (sq_location sq)
    /\ find (fun p => isEqualCoord (location p) (sq_location sq)) pieces
       = Some found
    /\ props = pieceLookup (type found) (sq_location sq).
Proof.
  intros Hin Hchild.
  change 9 with (9 + 0) in Hin. rewrite renderSquares_unrolled in Hin.
  apply in_map_iff in Hin. destruct Hin as (c & <- & Hc).
  apply grid_onGrid in Hc. unfold renderSquare in *.
  cbn [sq_location sq_children] in *.
  destruct (find _ pieces) as [found|]; [| discriminate].
  injection Hchild as <-. eauto.
Qed.

Lemma pieceData_narrow (t : PieceType) (loc : Coord) :
  asCoord (src_location (pieceData (pieceLookup t loc))) = loc
  /\ asPieceType (src_pieceType (pieceData (pieceLookup t loc))) = t.
Proof. destruct loc, t; split; reflexivity. Qed.

End Play.

(** X18.  A piece is found where it stands: on every board the component
    reaches, whatever the drop events, looking up the location of a piece of
    the board returns that very piece, so a drag that carries a piece's
    location can only move that piece. *)
Theorem piece_found_at_its_location :
  forall pieces piece,
    reachable pieces ->
    In piece pieces ->
    find (fun p => isEqualCoord (location p) (location piece)) pieces
    = Some piece.
Proof.
  intros pieces piece Hreach Hin.
  apply find_apart; [apply reachable_apart, Hreach | exact Hin |].
  apply (reachable_self_equal pieces Hreach), Hin.
Qed.

(** The pawn, after the king went to (4,3). *)
Lemma piece_found_at_its_location_witness :
  find (fun p => isEqualCoord (location p) (coord 1 6))
       (dropStep initialPieces
                 (mkDrop (getInitialData (coord 3 2) king)
                         [getData (coord 4 3)]))
  = Some (mkPiece 1 pawn (coord 1 6)).
Proof.
  apply (piece_found_at_its_location _ (mkPiece 1 pawn (coord 1 6))).
  - apply reach_drop, reach_initial.
  - right. left. reflexivity.
Defined.

(** X19.  A piece dragged from the square that shows it moves by its own
    rule: when the payload is the one a rendered piece registers, a commit
    puts at the destination a piece of the payload's kind, and the move was
    judged from the square's location with that kind. *)
Theorem rendered_piece_moves_by_its_rule :
  forall pieces sq props targets next,
    In sq (renderSquares 9 pieces) ->
    sq_children sq = Some props ->
    onDrop pieces (mkDrop (pieceData props) targets) = Some next ->
    exists destination rest,
      hd_error targets = Some destination
      /\ canMove (sq_location sq) (asCoord (target_location destination))
                 (props_pieceType props) pieces = true
      /\ next =
         mkPiece (fresh_oid pieces) (props_pieceType props)
                 (asCoord (target_location destination))
         :: rest.
Proof.
  intros pieces sq props targets next Hin Hchild Hdrop.
  destruct (rendered_child_found _ _ _ Hin Hchild)
    as (found & _ & Hfind & ->).
  apply onDrop_commits in Hdrop.
  destruct Hdrop as (destination & others & found' & Htargets & _ & _ & _
                     & Hfind' & Hmove & ->).
  cbn [source dropTargets] in *.
  destruct (pieceData_narrow (type found) (sq_location sq)) as [Eloc Ekind].
  rewrite Eloc in Hfind', Hmove. rewrite Ekind in Hmove.
  rewrite Hfind in Hfind'. injection Hfind' as <-.
  exists destination, (filter (fun p => strict_ne p (Some found)) pieces).
  rewrite Htargets. repeat split.
  - destruct (type found); exact Hmove.
  - destruct (type found); reflexivity.
Qed.

(** The pawn of the initial board, dragged from its square to (2,6). *)
Lemma rendered_piece_moves_by_its_rule_witness :
  exists destination rest,
    hd_error [getData (coord 2 6)] = Some destination
    /\ canMove (sq_location (renderSquare initialPieces (coord 1 6)))
               (asCoord (target_location destination))
               (props_pieceType (Pawn (coord 1 6))) initialPieces = true
    /\ [mkPiece 2 pawn (coord 2 6); mkPiece 0 king (coord 3 2)] =
       mkPiece (fresh_oid initialPieces) (props_pieceType (Pawn (coord 1 6)))
               (asCoord (target_location destination))
       :: rest.
Proof.
  apply (rendered_piece_moves_by_its_rule
           initialPieces (renderSquare initialPieces (coord 1 6))
           (Pawn (coord 1 6)) [getData (coord 2 6)]).
  - apply (nth_error_In _ 14). reflexivity.
  - reflexivity.
  - reflexivity.
Defined.

(** X20.  In play the pawn keeps its column and only goes forward: on every
    board reached by dragging rendered pieces onto rendered squares, each
    pawn stands in column 6, in a row from 1 to 7. *)
Theorem pawn_keeps_its_column :
  forall pieces,
    reachable_by_play pieces ->
    forall piece,
      In piece pieces -> type piece = pawn ->
      exists r, (1 <= r <= 7)%Z /\ location piece = coord r 6.
Proof.
  induction 1 as [|pieces ev Hplay IH Hsource Htarget].
  - intros piece [<- | [<- | []]] Hkind; [discriminate |].
    exists 1%Z. split; [lia | reflexivity].
  - unfold dropStep.
    destruct (onDrop pieces ev) as [next|] eqn:Hdrop; [| exact IH].
    destruct Hsource as (sq & props & Hsq & Hchild & Hsrc).
    destruct ev as [src targets]. cbn [source dropTargets] in *. subst src.
    destruct (rendered_child_found _ _ _ Hsq Hchild)
      as (found & Horigin & Hfind & ->).
    apply onDrop_commits in Hdrop.
    destruct Hdrop as (destination & others & found' & Htargets & _ & _ & _
                       & Hfind' & Hmove & ->).
    cbn [source dropTargets] in *.
    destruct (pieceData_narrow (type found) (sq_location sq)) as [Eloc Ekind].
    rewrite Eloc in Hfind', Hmove. rewrite Ekind in Hmove.
    rewrite Hfind in Hfind'. injection Hfind' as <-.
    intros piece [<- | Hin] Hkind.
    + cbn [type location] in *. rewrite Hkind in Hmove.
      apply find_some in Hfind. destruct Hfind as [Hfound Hat].
      destruct (IH found Hfound Hkind) as (r & Hr & Hloc).
      destruct Horigin as (r0 & c0 & Hr0 & Hc0 & Eorigin).
      destruct (Htarget destination) as (sq' & Hsq' & ->);
        [rewrite Htargets; reflexivity |].
      rewrite asCoord_getData in *.
      change 9 with (9 + 0) in Hsq'. rewrite renderSquares_unrolled in Hsq'.
      apply in_map_iff in Hsq'. destruct Hsq' as (d & <- & Hd).
      apply grid_onGrid in Hd. destruct Hd as (r2 & c2 & Hr2 & Hc2 & ->).
      cbn [renderSquare sq_location] in *.
      rewrite Eorigin, Hloc in Hat. rewrite Eorigin in Hmove.
      unfold isEqualCoord, coord, fst, snd in Hat.
      apply andb_true_iff in Hat. destruct Hat as [Hrow Hcol].
      apply small_strict_eq in Hrow, Hcol; try (unfold small; lia).
      pose proof (canMove_true_unoccupied _ _ _ _ Hmove) as Hfree.
      rewrite (canMove_unoccupied _ _ pawn _ Hfree) in Hmove.
      unfold coord, fst, snd in Hmove.
      apply andb_true_iff in Hmove. destruct Hmove as [Hc Hrw].
      apply small_dist_zero in Hc; try (unfold small; lia).
      apply small_diff_minus_one in Hrw; try (unfold small; lia).
      exists (r + 1)%Z. split; [lia |].
      f_equal; f_equal; lia.
    + apply filter_In in Hin. apply IH; [apply Hin | exact Hkind].
Qed.

(** The pawn after it was dragged from (1,6) to (2,6). *)
Lemma pawn_keeps_its_column_witness :
  exists r,
    (1 <= r <= 7)%Z
    /\ location (mkPiece 2 pawn (coord 2 6)) = coord r 6.
Proof.
  apply (pawn_keeps_its_column
           (dropStep initialPieces
                     (mkDrop (pieceData (Pawn (coord 1 6)))
                             [getData (coord 2 6)]))).
  - apply play_drop; [apply play_initial | |].
    + exists (renderSquare initialPieces (coord 1 6)), (Pawn (coord 1 6)).
      split; [apply (nth_error_In _ 14); reflexivity |].
      split; reflexivity.
    + intros target Htarget. injection Htarget as <-.
      exists (renderSquare initialPieces (coord 2 6)).
      split; [apply (nth_error_In _ 22); reflexivity | reflexivity].
  - left. reflexivity.
  - reflexivity.
Defined.

(** X21.  Every move made in play is a step of the piece's kind: when a
    rendered piece is dragged from its square at row [r1], column [c1] and
    dropped on the rendered square at row [r2], column [c2], a commit means
    that a king went to a different square at most one row and one column
    away, and that a pawn went to the next row of the same column. *)
Theorem play_moves_are_steps :
  forall pieces sq props target others next,
    In sq (renderSquares 9 pieces) ->
    sq_children sq = Some props ->
    In target (renderSquares 9 pieces) ->
    onDrop pieces
           (mkDrop (pieceData props) (getData (sq_location target) :: others))
    = Some next ->
    exists r1 c1 r2 c2,
      (0 <= r1 < 8 /\ 0 <= c1 < 8 /\ 0 <= r2 < 8 /\ 0 <= c2 < 8)%Z
      /\ sq_location sq = coord r1 c1
      /\ sq_location target = coord r2 c2
      /\ hd_error next
         = Some (mkPiece (fresh_oid pieces) (props_pieceType props)
                         (coord r2 c2))
      /\ match props_pieceType props with
         | king =>
             (Z.abs (r1 - r2) <= 1 /\ Z.abs (c1 - c2) <= 1
              /\ (r1 <> r2 \/ c1 <> c2))%Z
         | pawn => (c2 = c1 /\ r2 = r1 + 1)%Z
         end.
Proof.
  intros pieces sq props target others next Hsq Hchild Htarget Hdrop.
  destruct (rendered_child_found _ _ _ Hsq Hchild)
    as (found & Horigin & Hfind & ->).
  apply onDrop_commits in Hdrop.
  destruct Hdrop as (destination & rest & found' & Htargets & _ & _ & _
                     & Hfind' & Hmove & ->).
  cbn [source dropTargets] in *. injection Htargets as <- <-.
  destruct (pieceData_narrow (type found) (sq_location sq)) as [Eloc Ekind].
  rewrite Eloc in Hfind', Hmove. rewrite Ekind in Hmove.
  rewrite Hfind in Hfind'. injection Hfind' as <-.
  rewrite asCoord_getData in *.
  change 9 with (9 + 0) in Htarget.
  rewrite renderSquares_unrolled in Htarget.
  apply in_map_iff in Htarget. destruct Htarget as (d & <- & Hd).
  apply grid_onGrid in Hd. destruct Hd as (r2 & c2 & Hr2 & Hc2 & ->).
  destruct Horigin as (r1 & c1 & Hr1 & Hc1 & Eorigin).
  cbn [renderSquare sq_location] in *. rewrite Eorigin in *.
  exists r1, c1, r2, c2.
  split; [lia |]. split; [reflexivity |]. split; [reflexivity |].
  split; [destruct (type found); reflexivity |].
  pose proof (canMove_true_unoccupied _ _ _ _ Hmove) as Hfree.
  assert (Hmoved : isEqualCoord (coord r1 c1) (coord r2 c2) = false).
  { apply not_true_iff_false. intros Heq.
    apply find_some in Hfind. destruct Hfind as [Hin Hat].
    assert (Hocc : occupied (coord r2 c2) pieces = true).
    { apply occupied_iff. exists found. split; [exact Hin |].
      eapply isEqualCoord_trans; eassumption. }
    congruence. }
  rewrite (canMove_unoccupied _ _ _ _ Hfree) in Hmove.
  unfold coord, fst, snd in Hmove.
  assert (Sr1 : small r1) by (unfold small; lia).
  assert (Sc1 : small c1) by (unfold small; lia).
  assert (Sr2 : small r2) by (unfold small; lia).
  assert (Sc2 : small c2) by (unfold small; lia).
  destruct (type found); cbn [props_pieceType pieceLookup King Pawn];
    apply andb_true_iff in Hmove; destruct Hmove as [H1 H2].
  - apply includes_zero_one in H1, H2. unfold zero_or_one in H1, H2.
    rewrite (small_dist_zero r1 r2 Sr1 Sr2), (small_dist_one r1 r2 Sr1 Sr2)
      in H1.
    rewrite (small_dist_zero c1 c2 Sc1 Sc2), (small_dist_one c1 c2 Sc1 Sc2)
      in H2.
    split; [lia |]. split; [lia |].
    destruct (Z.eq_dec r1 r2) as [Er | Er]; [| left; exact Er].
    destruct (Z.eq_dec c1 c2) as [Ec | Ec]; [| right; exact Ec].
    exfalso. subst r2 c2.
    unfold isEqualCoord, coord, fst, snd in Hmoved.
    apply andb_false_iff in Hmoved.
    destruct Hmoved as [E | E]; apply not_true_iff_false in E; apply E;
      apply small_strict_eq; auto.
  - apply (small_dist_zero c1 c2 Sc1 Sc2) in H1.
    apply (small_diff_minus_one r1 r2 Sr1 Sr2) in H2. lia.
Qed.

(** The king of the initial board dragged from (3,2) to (4,3). *)
Lemma play_moves_are_steps_witness :
  exists r1 c1 r2 c2,
    (0 <= r1 < 8 /\ 0 <= c1 < 8 /\ 0 <= r2 < 8 /\ 0 <= c2 < 8)%Z
    /\ sq_location (renderSquare initialPieces (coord 3 2)) = coord r1 c1
    /\ sq_location (renderSquare initialPieces (coord 4 3)) = coord r2 c2
    /\ hd_error [mkPiece 2 king (coord 4 3); mkPiece 1 pawn (coord 1 6)]
       = Some (mkPiece (fresh_oid initialPieces)
                       (props_pieceType (King (coord 3 2))) (coord r2 c2))
    /\ match props_pieceType (King (coord 3 2)) with
       | king =>
           (Z.abs (r1 - r2) <= 1 /\ Z.abs (c1 - c2) <= 1
            /\ (r1 <> r2 \/ c1 <> c2))%Z
       | pawn => (c2 = c1 /\ r2 = r1 + 1)%Z
       end.
Proof.
  apply (play_moves_are_steps
           initialPieces (renderSquare initialPieces (coord 3 2))
           (King (coord 3 2)) (renderSquare initialPieces (coord 4 3)) []).
  - apply (nth_error_In _ 26). reflexivity.
  - reflexivity.
  - apply (nth_error_In _ 35). reflexivity.
  - reflexivity.
Defined.
